(** * Verification of the remote API test client ([scripts/test-remote.js])

    The client signs a request with HMAC-SHA256, submits a job, polls its
    status until a terminal state or a deadline, and streams the produced
    artifact to disk.  This file embeds the functions of the script as Rocq
    functions over an explicit world (clock, scripted network, console
    output, file system) and proves the properties of the client protocol. *)

From Stdlib Require Import ZArith String Ascii List Lia Bool Sorted DecimalString DecimalZ.
From stdpp Require Import gmap strings list.
Import ListNotations.

Local Open Scope string_scope.
Local Open Scope list_scope.
Local Open Scope Z_scope.

(* ===================================================================== *)
(** * JavaScript primitives used by the script                           *)
(* ===================================================================== *)

Module Js.

(** [String(n)] and [n.toString()] for an integer number: the decimal
    numeral, with a leading minus sign for negative numbers.  (JavaScript
    switches to exponent notation from 1e21 on; the timestamps, progress
    values and sizes of the script are far below that.) *)
Definition String_of_number (n : Z) : string :=
  NilZero.string_of_int (Z.to_int n).

(** Truthiness of a possibly-undefined string: [undefined] and [''] are
    falsy. *)
Definition truthy_str (s : option string) : bool :=
  match s with
  | None => false
  | Some EmptyString => false
  | Some _ => true
  end.

(** Truthiness of a possibly-undefined number: [undefined] and [0] are
    falsy, as is [NaN] (which is represented by [None] as well). *)
Definition truthy_num (n : option Z) : bool :=
  match n with
  | None => false
  | Some 0 => false
  | Some _ => true
  end.

(** [s || d] on strings. *)
Definition or_str (s : option string) (d : string) : string :=
  match s with
  | Some (String c r) => String c r
  | _ => d
  end.

(** [n || d] on numbers. *)
Definition or_num (n : option Z) (d : Z) : Z :=
  if truthy_num n then default d n else d.

(** [`${s}`] for a possibly-undefined string. *)
Definition template_str (s : option string) : string :=
  default "undefined" s.

(** [s.startsWith(p)] *)
Definition startsWith (p s : string) : bool := String.prefix p s.

(** [s.replace(/\/$/, '')]: the pattern has no flags, so [$] matches at
    the very end of the input only and at most one slash is removed. *)
Fixpoint replace_trailing_slash (s : string) : string :=
  match s with
  | EmptyString => EmptyString
  | String c EmptyString => if Ascii.eqb c "/" then EmptyString else s
  | String c r => String c (replace_trailing_slash r)
  end.

(** [s.substring(0, n)] *)
Definition substring0 (n : nat) (s : string) : string := String.substring 0 n s.

(** [Math.round(p / q)] for integers [p] and [q <> 0], computed on the
    exact quotient: [Math.round x] is [floor (x + 1/2)]. *)
Definition round_div (p q : Z) : Z := (2 * p + q) / (2 * q).

(** White space skipped by [parseInt] (the ASCII part of it). *)
Definition is_space (c : ascii) : bool :=
  let n := nat_of_ascii c in
  (((9 <=? n)%nat && (n <=? 13)%nat) || (n =? 32)%nat)%bool.

Definition digit_of (c : ascii) : option Z :=
  let n := Z.of_nat (nat_of_ascii c) in
  if (48 <=? n) && (n <=? 57) then Some (n - 48) else None.

Fixpoint skip_spaces (s : string) : string :=
  match s with
  | String c r => if is_space c then skip_spaces r else s
  | EmptyString => s
  end.

(** The value of the longest prefix of decimal digits, [None] when the
    string does not start with a digit. *)
Fixpoint digits_prefix (acc : option Z) (s : string) : option Z :=
  match s with
  | String c r =>
      match digit_of c with
      | Some d => digits_prefix (Some (10 * default 0 acc + d)) r
      | None => acc
      end
  | EmptyString => acc
  end.

(** [parseInt(s, 10)] of a possibly-undefined header value; [None] is
    [NaN].  ([parseInt(undefined)] parses the text "undefined".) *)
Definition parseInt10 (s : option string) : option Z :=
  match s with
  | None => None
  | Some s =>
      match skip_spaces s with
      | String "-" r => Z.opp <$> digits_prefix None r
      | String "+" r => digits_prefix None r
      | r => digits_prefix None r
      end
  end.

End Js.

(* ===================================================================== *)
(** * The [crypto] module: SHA-256 and HMAC                              *)
(* ===================================================================== *)

(** Node's [crypto.createHmac('sha256', key)] is OpenSSL's HMAC (RFC 2104)
    over SHA-256 (FIPS 180-4).  Both are written out here on 32-bit words
    held in [Z], with the wrap-around explicit, so that signatures can be
    computed and compared with published test vectors. *)

Module Crypto.

Definition bytes := list Z.

(** UTF-8 bytes of a string (strings are held as their UTF-8 bytes). *)
Fixpoint bytes_of_string (s : string) : bytes :=
  match s with
  | EmptyString => []
  | String c r => Z.of_nat (nat_of_ascii c) :: bytes_of_string r
  end.

Definition wrap32 (x : Z) : Z := x mod 2 ^ 32.
Definition add32 (x y : Z) : Z := wrap32 (x + y).
Definition rotr (n x : Z) : Z :=
  Z.lor (Z.shiftr x n) (wrap32 (Z.shiftl x (32 - n))).
Definition not32 (x : Z) : Z := Z.lxor x (2 ^ 32 - 1).

Definition Ch (x y z : Z) : Z := Z.lxor (Z.land x y) (Z.land (not32 x) z).
Definition Maj (x y z : Z) : Z :=
  Z.lxor (Z.lxor (Z.land x y) (Z.land x z)) (Z.land y z).
Definition bigSigma0 (x : Z) : Z := Z.lxor (Z.lxor (rotr 2 x) (rotr 13 x)) (rotr 22 x).
Definition bigSigma1 (x : Z) : Z := Z.lxor (Z.lxor (rotr 6 x) (rotr 11 x)) (rotr 25 x).
Definition smallSigma0 (x : Z) : Z := Z.lxor (Z.lxor (rotr 7 x) (rotr 18 x)) (Z.shiftr x 3).
Definition smallSigma1 (x : Z) : Z := Z.lxor (Z.lxor (rotr 17 x) (rotr 19 x)) (Z.shiftr x 10).

(** The round constants are the first 32 bits of the fractional parts of
    the cube roots of the first 64 primes, the initial hash value those of
    the square roots of the first 8 primes; they are computed from that
    description. *)
Definition is_prime (n : nat) : bool :=
  (2 <=? n)%nat && forallb (fun d => negb (n mod d =? 0)%nat) (seq 2 (n - 2)).

Definition primes64 : list Z :=
  Eval vm_compute in map Z.of_nat (filter is_prime (seq 2 310)).

(** Integer cube root, one bit at a time from bit [k - 1] down. *)
Fixpoint icbrt_bits (k : nat) (n r : Z) : Z :=
  match k with
  | O => r
  | S k' =>
      let r' := r + 2 ^ Z.of_nat k' in
      icbrt_bits k' n (if r' * r' * r' <=? n then r' else r)
  end.

Definition K256 : list Z :=
  Eval vm_compute in map (fun p => wrap32 (icbrt_bits 36 (p * 2 ^ 96) 0)) primes64.

Definition H256 : list Z :=
  Eval vm_compute in map (fun p => wrap32 (Z.sqrt (p * 2 ^ 64))) (firstn 8 primes64).

(** Big-endian bytes of a number, [k] of them. *)
Fixpoint be_bytes (k : nat) (x : Z) : bytes :=
  match k with
  | O => []
  | S k' => (x / 256 ^ Z.of_nat k') mod 256 :: be_bytes k' x
  end.

Definition be_word (bs : bytes) : Z :=
  fold_left (fun acc b => acc * 256 + b) bs 0.

(** Padding (FIPS 180-4, 5.1.1): a 1 bit, zeros up to 56 mod 64 bytes,
    then the bit length on 8 bytes. *)
Definition pad (msg : bytes) : bytes :=
  let len := Z.of_nat (length msg) in
  msg ++ 128 :: repeat 0 (Z.to_nat ((55 - len) mod 64)) ++ be_bytes 8 (8 * len).

(** Cuts a byte string into groups of [n] bytes; [fuel] bounds the number
    of groups. *)
Fixpoint chunks (fuel n : nat) (bs : bytes) : list bytes :=
  match fuel, bs with
  | O, _ => []
  | _, [] => []
  | S fuel', _ => firstn n bs :: chunks fuel' n (skipn n bs)
  end.

Definition words_of_block (block : bytes) : list Z :=
  map be_word (chunks 16 4 block).

(** Message schedule: the 16 words of the block, then 48 derived words. *)
Fixpoint extend_schedule (k : nat) (w : list Z) : list Z :=
  match k with
  | O => w
  | S k' =>
      let t := length w in
      let at_ i := nth (t - i) w 0 in
      let next :=
        add32 (add32 (smallSigma1 (at_ 2%nat)) (at_ 7%nat))
              (add32 (smallSigma0 (at_ 15%nat)) (at_ 16%nat)) in
      extend_schedule k' (w ++ [next])
  end.

Definition schedule (block : bytes) : list Z :=
  extend_schedule 48 (words_of_block block).

(** The eight working variables, and the hash value. *)
Record state := State { sa : Z; sb : Z; sc : Z; sd : Z; se : Z; sf : Z; sg : Z; sh : Z }.

Definition round (s : state) (kw : Z * Z) : state :=
  let t1 := add32 (add32 (add32 (sh s) (bigSigma1 (se s)))
                         (add32 (Ch (se s) (sf s) (sg s)) kw.1)) kw.2 in
  let t2 := add32 (bigSigma0 (sa s)) (Maj (sa s) (sb s) (sc s)) in
  State (add32 t1 t2) (sa s) (sb s) (sc s) (add32 (sd s) t1) (se s) (sf s) (sg s).

Definition add_state (h s : state) : state :=
  State (add32 (sa h) (sa s)) (add32 (sb h) (sb s)) (add32 (sc h) (sc s))
        (add32 (sd h) (sd s)) (add32 (se h) (se s)) (add32 (sf h) (sf s))
        (add32 (sg h) (sg s)) (add32 (sh h) (sh s)).

Definition compress (h : state) (block : bytes) : state :=
  add_state h (fold_left round (combine K256 (schedule block)) h).

Definition initial_state : state :=
  State (nth 0 H256 0) (nth 1 H256 0) (nth 2 H256 0) (nth 3 H256 0)
        (nth 4 H256 0) (nth 5 H256 0) (nth 6 H256 0) (nth 7 H256 0).

Definition words_of_state (s : state) : list Z :=
  [sa s; sb s; sc s; sd s; se s; sf s; sg s; sh s].

(** The digest as a 256-bit number: the eight words, most significant
    first. *)
Definition number_of_state (s : state) : Z :=
  fold_left (fun acc w => acc * 2 ^ 32 + wrap32 w) (words_of_state s) 0.

Definition sha256_state (msg : bytes) : state :=
  let padded := pad msg in
  fold_left compress (chunks (length padded) 64 padded) initial_state.

Definition sha256_number (msg : bytes) : Z := number_of_state (sha256_state msg).

Definition sha256 (msg : bytes) : bytes := be_bytes 32 (sha256_number msg).

(** HMAC (RFC 2104) with block size 64: a key longer than a block is
    hashed first, then padded with zeros to a full block. *)
Definition block_key (key : bytes) : bytes :=
  let k := if (64 <? length key)%nat then sha256 key else key in
  k ++ repeat 0 (64 - length k)%nat.

Definition hmac_sha256_number (key msg : bytes) : Z :=
  let k := block_key key in
  let inner := sha256 (map (Z.lxor 54) k ++ msg) in
  sha256_number (map (Z.lxor 92) k ++ inner).

(** Lowercase hexadecimal digits. *)
Definition hex_digit (d : Z) : ascii :=
  ascii_of_nat (Z.to_nat (if d <? 10 then 48 + d else 87 + d)).

Fixpoint hex_of_number (k : nat) (x : Z) : string :=
  match k with
  | O => EmptyString
  | S k' => String (hex_digit ((x / 16 ^ Z.of_nat k') mod 16)) (hex_of_number k' x)
  end.

(** The [Hmac] object: [createHmac] fixes algorithm and key, [update]
    appends data, [digest('hex')] finishes. *)
Record Hmac := { hmac_key : bytes; hmac_data : bytes }.

Definition createHmac_sha256 (key : string) : Hmac :=
  {| hmac_key := bytes_of_string key; hmac_data := [] |}.

Definition update (h : Hmac) (data : string) : Hmac :=
  {| hmac_key := hmac_key h; hmac_data := hmac_data h ++ bytes_of_string data |}.

Definition digest_hex (h : Hmac) : string :=
  hex_of_number 64 (hmac_sha256_number (hmac_key h) (hmac_data h)).

Definition sha256_hex (msg : string) : string :=
  hex_of_number 64 (sha256_number (bytes_of_string msg)).

End Crypto.

(* ===================================================================== *)
(** * JSON values and [JSON.stringify]                                   *)
(* ===================================================================== *)

Module Json.

(** A request body is a JSON value; an object keeps its properties in
    enumeration order, which is the order [JSON.stringify] writes them in.
    Numbers are integers (the script sends none). *)
#[local] Set Warnings "-register-all".
Inductive json :=
| JNull
| JBool (b : bool)
| JNum (n : Z)
| JStr (s : string)
| JArr (items : list json)
| JObj (props : list (string * json)).

(** The double quote character, as a string. *)
Definition dquote : string := String (ascii_of_nat 34) EmptyString.

(** Escaping of one character inside a JSON string literal: the quote,
    the backslash and the control characters below 0x20. *)
Definition escape_char (c : ascii) : string :=
  let n := Z.of_nat (nat_of_ascii c) in
  if n =? 34 then String "\" dquote
  else if n =? 92 then "\\"
  else if n =? 8 then "\b"
  else if n =? 9 then "\t"
  else if n =? 10 then "\n"
  else if n =? 12 then "\f"
  else if n =? 13 then "\r"
  else if n <? 32 then "\u00" +:+ Crypto.hex_of_number 2 n
  else String c EmptyString.

Fixpoint escape (s : string) : string :=
  match s with
  | EmptyString => EmptyString
  | String c r => escape_char c +:+ escape r
  end.

Definition quote (s : string) : string := dquote +:+ escape s +:+ dquote.

Fixpoint join (sep : string) (l : list string) : string :=
  match l with
  | [] => EmptyString
  | [x] => x
  | x :: r => x +:+ sep +:+ join sep r
  end.

(** [JSON.stringify(v)] without indentation. *)
Fixpoint stringify (v : json) : string :=
  match v with
  | JNull => "null"
  | JBool true => "true"
  | JBool false => "false"
  | JNum n => Js.String_of_number n
  | JStr s => quote s
  | JArr items => "[" +:+ join "," (map stringify items) +:+ "]"
  | JObj props =>
      "{" +:+ join "," (map (fun kv => quote kv.1 +:+ ":" +:+ stringify kv.2) props) +:+ "}"
  end.

(** Truthiness of a body argument that may be left out: [null] (the
    default), [false], [0] and [''] are falsy; objects and arrays are
    always truthy. *)
Definition truthy (body : option json) : bool :=
  match body with
  | None | Some JNull | Some (JBool false) | Some (JNum 0) | Some (JStr EmptyString) => false
  | Some _ => true
  end.

End Json.

Export Json.

(* ===================================================================== *)
(** * The world the script runs in                                       *)
(* ===================================================================== *)

Module World.

(** Thrown values: [Error] objects and the [RangeError] of
    [String.prototype.repeat]. *)
Inductive exn :=
| Error (message : string)
| RangeError (message : string).

Definition error_message (e : exn) : string :=
  match e with Error m | RangeError m => m end.

(** Result of running a piece of the script:
    - [Ok a]: it returned [a] (an awaited promise resolved with [a]);
    - [Throw e]: it threw [e] (an awaited promise rejected with [e]);
    - [Abort e]: [e] was thrown inside an event handler, where no handler
      of the script catches it, and the process terminates;
    - [Pending]: no result yet: the loop is still running when the fuel
      is used up, or the awaited promise never settles. *)
Inductive Outcome (A : Type) :=
| Ok (a : A)
| Throw (e : exn)
| Abort (e : exn)
| Pending.
Arguments Ok {A} a.
Arguments Throw {A} e.
Arguments Abort {A} e.
Arguments Pending {A}.

(** What [axios] sends. *)
Record RequestConfig := {
  cfg_method : string;
  cfg_url : string;
  cfg_headers : gmap string string;
  cfg_data : option json;
  cfg_timeout : Z;
  cfg_stream : bool      (* responseType: 'stream' *)
}.

(** The error [axios] rejects with: [error.response] when the server
    answered with an error status, [error.request] when the request was
    made but no response came, [error.code] and [error.message]. *)
Record ErrorResponse := {
  res_status : Z;
  res_message : option string;   (* error.response.data.message *)
  res_error : option string      (* error.response.data.error *)
}.

Record AxiosError := {
  err_response : option ErrorResponse;
  err_request : bool;
  err_code : option string;
  err_message : string
}.

Inductive AxiosResult (D : Type) :=
| AxResponse (data : D)
| AxError (e : AxiosError).
Arguments AxResponse {D} data.
Arguments AxError {D} e.

(** [response.data] of [POST /generate-video] and [GET /job/{jobId}]:
    an object with these properties, [None] where one is left out. *)
Record ApiData := {
  job_jobId : option string;
  job_status : string;
  job_estimatedCompletionTime : option string;
  job_progress : option Z;
  job_currentStep : option string;
  job_error : option string;
  job_downloadUrl : option string;
  job_fileSize : option Z;
  job_duration : option Z;
  job_resolution : option string;
  job_expiresAt : option Z
}.

(** [response.data] of [GET /health]. *)
Record Health := {
  health_service : string;
  health_version : string;
  health_uptime : Z;
  worker_running : bool;
  worker_currentJobs : Z;
  worker_maxConcurrentJobs : Z;
  jobs_pending : Z;
  jobs_processing : Z;
  jobs_completed : Z;
  jobs_failed : Z
}.

(** Events of a streamed response piped into a file: a chunk arrives (and
    is written by the pipe), the stream ends (the pipe ends the writer,
    which then emits [finish]), the response stream emits [error], or the
    writer emits [error]. *)
Inductive StreamEvent :=
| Data (chunk : list Byte.byte)
| End_
| StreamError (message : string)
| WriterError (message : string).

Record StreamResponse := {
  stream_headers : gmap string string;
  stream_events : list StreamEvent
}.

(** The environment: what the network, the timers and the disk will do.
    The [n]-th call through [makeAuthenticatedRequest] takes [fst] ms and
    ends as [snd] says; the [n]-th sleep overshoots its delay by
    [timer_lag n] ms. *)
Record Env := {
  health_reply : N * AxiosResult Health;
  api_reply : nat -> N * AxiosResult ApiData;
  download_reply : N * AxiosResult StreamResponse;
  timer_lag : nat -> N;
  open_error : option string   (* the destination cannot be opened *)
}.

(** Console output, one event per call of a logging function of the
    script (colours and the drawing of the bar are left out). *)
Inductive Output :=
| OutLog (message : string)
| OutStep (step message : string)
| OutInfo (message : string)
| OutSuccess (message : string)
| OutError (message : string)
| OutWarning (message : string)
| OutProgress (message : string) (percentage : Z)
| OutNewline.

(** The state: the clock ([Date.now()], in ms), the requests sent so far
    with the time each was sent at, the number of API calls and of sleeps
    so far, the console, and the files. *)
Record World := {
  clock : Z;
  sent : list (Z * RequestConfig);
  api_calls : nat;
  naps : nat;
  out : list Output;
  fs : gmap string (list Byte.byte)
}.

Definition M (A : Type) : Type := World -> Outcome A * World.

Definition ret {A} (a : A) : M A := fun w => (Ok a, w).
Definition throw {A} (e : exn) : M A := fun w => (Throw e, w).
Definition abort {A} (e : exn) : M A := fun w => (Abort e, w).
Definition pending {A} : M A := fun w => (Pending, w).

Definition bind {A B} (c : M A) (k : A -> M B) : M B :=
  fun w =>
    match c w with
    | (Ok a, w') => k a w'
    | (Throw e, w') => (Throw e, w')
    | (Abort e, w') => (Abort e, w')
    | (Pending, w') => (Pending, w')
    end.

(** Runs a pure computation that may throw. *)
Definition lift {A} (r : Outcome A) : M A := fun w => (r, w).

(** An exception thrown inside an event handler is not caught. *)
Definition in_handler {A} (c : M A) : M A :=
  fun w =>
    match c w with
    | (Throw e, w') => (Abort e, w')
    | r => r
    end.

Definition Date_now : M Z := fun w => (Ok (clock w), w).

Definition advance (ms : Z) (w : World) : World :=
  {| clock := clock w + ms; sent := sent w; api_calls := api_calls w;
     naps := naps w; out := out w; fs := fs w |}.

Definition record_request (c : RequestConfig) (w : World) : World :=
  {| clock := clock w; sent := sent w ++ [(clock w, c)]; api_calls := api_calls w;
     naps := naps w; out := out w; fs := fs w |}.

Definition count_api_call (w : World) : World :=
  {| clock := clock w; sent := sent w; api_calls := S (api_calls w);
     naps := naps w; out := out w; fs := fs w |}.

Definition count_nap (w : World) : World :=
  {| clock := clock w; sent := sent w; api_calls := api_calls w;
     naps := S (naps w); out := out w; fs := fs w |}.

Definition emit (o : Output) : M unit :=
  fun w =>
    (Ok tt, {| clock := clock w; sent := sent w; api_calls := api_calls w;
               naps := naps w; out := out w ++ [o]; fs := fs w |}).

Definition set_fs (f : gmap string (list Byte.byte)) (w : World) : World :=
  {| clock := clock w; sent := sent w; api_calls := api_calls w;
     naps := naps w; out := out w; fs := f |}.

Section WithEnv.
Variable env : Env.

(** [await axios(config)] on the job API. *)
Definition axios_api (c : RequestConfig) : M (AxiosResult ApiData) :=
  fun w =>
    let reply := api_reply env (api_calls w) in
    (Ok reply.2, advance (Z.of_N reply.1) (count_api_call (record_request c w))).

(** [await axios.get(url, { timeout })] on the health endpoint. *)
Definition axios_health (c : RequestConfig) : M (AxiosResult Health) :=
  fun w =>
    let reply := health_reply env in
    (Ok reply.2, advance (Z.of_N reply.1) (record_request c w)).

(** [await axios({ ..., responseType: 'stream' })] *)
Definition axios_stream (c : RequestConfig) : M (AxiosResult StreamResponse) :=
  fun w =>
    let reply := download_reply env in
    (Ok reply.2, advance (Z.of_N reply.1) (record_request c w)).

(** [await new Promise(resolve => setTimeout(resolve, ms))] *)
Definition sleep (ms : Z) : M unit :=
  fun w => (Ok tt, advance (ms + Z.of_N (timer_lag env (naps w))) (count_nap w)).

End WithEnv.

End World.

Export World.

Declare Scope js_scope.
Delimit Scope js_scope with js.
Notation "'let!' x ':=' c 'in' k" := (bind c (fun x => k))
  (at level 10, x name, c at level 100, k at level 200) : js_scope.
Notation "'do!' c 'in' k" := (bind c (fun _ => k))
  (at level 10, c at level 100, k at level 200) : js_scope.

(* ===================================================================== *)
(** * The script                                                         *)
(* ===================================================================== *)

Module Client.

Local Open Scope js_scope.

(** Configuration constants of the script. *)
Definition POLL_INTERVAL_MS : Z := 5000.
Definition MAX_TIMEOUT_MS : Z := 5 * 60 * 1000.
Definition OUTPUT_FILE : string := "test-output-remote.mp4".

Definition nl : string := String (ascii_of_nat 10) EmptyString.

(** ** Logging utilities *)

Definition log (message : string) : M unit := emit (OutLog message).
Definition logStep (step message : string) : M unit := emit (OutStep step message).
Definition logInfo (message : string) : M unit := emit (OutInfo message).
Definition logSuccess (message : string) : M unit := emit (OutSuccess message).
Definition logError (message : string) : M unit := emit (OutError message).
Definition logWarning (message : string) : M unit := emit (OutWarning message).

(** [String.prototype.repeat(count)] throws a [RangeError] for a negative
    count; only that is kept of the two [repeat] calls that draw the bar. *)
Definition repeat_check (count : Z) : M unit :=
  if count <? 0
  then throw (RangeError ("Invalid count value: " +:+ Js.String_of_number count))
  else ret tt.

Definition logProgress (message : string) (percentage : Z) : M unit :=
  let barLength := 30 in
  let filledLength := Js.round_div (barLength * percentage) 100 in
  do! repeat_check filledLength in
  do! repeat_check (barLength - filledLength) in
  do! emit (OutProgress message percentage) in
  if percentage >=? 100 then emit OutNewline else ret tt.

Section Script.

(** [process.argv[2]] and [process.env.HMAC_SECRET]; [None] when not
    given. *)
Variable REMOTE_URL : option string.
Variable HMAC_SECRET : option string.

(** Whether [new URL(url)] accepts [url] (the WHATWG URL parser of the
    runtime). *)
Variable urlParses : string -> bool.

(** Number formatting done in floating point or depending on the
    locale: [formatBytes(bytes)], [new Date(t).toLocaleString()] and
    [(ms / 1000).toFixed(2)]. *)
Variable formatBytes : option Z -> string.
Variable toLocaleString : option Z -> string.
Variable toFixed2 : Z -> string.

Variable env : Env.

(** ** validateUrl *)
Definition validateUrl (url : option string) : Outcome string :=
  if negb (Js.truthy_str url) then Throw (Error "URL is required")
  else
    let url := default EmptyString url in
    (* Remove trailing slash *)
    let url := Js.replace_trailing_slash url in
    (* Ensure it starts with http:// or https:// *)
    let url :=
      if negb (Js.startsWith "http://" url) && negb (Js.startsWith "https://" url)
      then "https://" +:+ url
      else url in
    (* Validate URL format *)
    if urlParses url then Ok url
    else Throw (Error ("Invalid URL format: " +:+ url)).

(** ** generateSignature *)
Definition generateSignature (timestamp : Z) (body : json) : Outcome string :=
  match HMAC_SECRET with
  | Some (String c r) =>
      let timestampStr := Js.String_of_number timestamp in
      let bodyStr := stringify body in
      let message := timestampStr +:+ ":" +:+ bodyStr in
      let hmac := Crypto.createHmac_sha256 (String c r) in
      let hmac := Crypto.update hmac message in
      Ok (Crypto.digest_hex hmac)
  | _ => Throw (Error "HMAC_SECRET environment variable is not set")
  end.

(** ** makeAuthenticatedRequest *)
Definition base_config (method url : string) (timestamp : Z) : RequestConfig :=
  {| cfg_method := method;
     cfg_url := url;
     cfg_headers :=
       <["X-Timestamp" := Js.String_of_number timestamp]>
         (<["Content-Type" := "application/json"]> ∅);
     cfg_data := None;
     cfg_timeout := 30000;
     cfg_stream := false |}.

Definition with_signed_body (config : RequestConfig) (body : option json)
    (signature : string) : RequestConfig :=
  {| cfg_method := cfg_method config;
     cfg_url := cfg_url config;
     cfg_headers := <["X-Signature" := signature]> (cfg_headers config);
     cfg_data := body;
     cfg_timeout := cfg_timeout config;
     cfg_stream := cfg_stream config |}.

Definition api_error_message (e : AxiosError) : string :=
  match err_response e with
  | Some res =>
      (* Server responded with error status *)
      "API Error (" +:+ Js.String_of_number (res_status res) +:+ "): "
      +:+ Js.or_str (res_message res) (Js.or_str (res_error res) "Unknown error")
  | None =>
      if err_request e
      then "Network Error: No response from server. Is the API accessible?"
      else "Request Error: " +:+ err_message e
  end.

Definition makeAuthenticatedRequest (method endpoint : string) (body : option json)
    : M ApiData :=
  let! now := Date_now in
  let timestamp := now / 1000 in
  let url := Js.template_str REMOTE_URL +:+ endpoint in
  let config := base_config method url timestamp in
  let! config :=
    (if Json.truthy body then
       let! signature := lift (generateSignature timestamp (default JNull body)) in
       ret (with_signed_body config body signature)
     else ret config) in
  let! response := axios_api env config in
  match response with
  | AxResponse data => ret data
  | AxError e => throw (Error (api_error_message e))
  end.

(** ** pollJobStatus *)

(** Show progress if changed: the body of the first [if] of the loop;
    returns the new [lastStatus] and [lastProgress]. *)
Definition showProgressIfChanged (job : ApiData)
    (lastStatus : option string) (lastProgress : option Z)
    : M (option string * option Z) :=
  if negb (bool_decide (Some (job_status job) = lastStatus))
     || negb (bool_decide (job_progress job = lastProgress))
  then
    do! (if String.eqb (job_status job) "processing" && Js.truthy_str (job_currentStep job)
         then logProgress (default EmptyString (job_currentStep job))
                          (Js.or_num (job_progress job) 0)
         else if String.eqb (job_status job) "pending"
         then logInfo "Job is pending..."
         else ret tt) in
    ret (Some (job_status job), job_progress job)
  else ret (lastStatus, lastProgress).

(** What one pass through the body of the [while (true)] loop ends
    with: the [return] statement, or the end of the body with the
    values of [lastStatus] and [lastProgress] for the next pass. *)
Inductive Iteration :=
| Return (job : ApiData)
| Continue (lastStatus : option string) (lastProgress : option Z).

(** The body of the loop. *)
Definition pollIteration (jobId : option string) (startTime : Z)
    (lastStatus : option string) (lastProgress : option Z) : M Iteration :=
  (* Check timeout *)
  let! now := Date_now in
  if now - startTime >? MAX_TIMEOUT_MS
  then throw (Error "Timeout: Job did not complete within 5 minutes")
  else
    (* Get job status *)
    let! job := makeAuthenticatedRequest "GET" ("/job/" +:+ Js.template_str jobId) None in
    (* Show progress if changed *)
    let! last := showProgressIfChanged job lastStatus lastProgress in
    (* Check if job is complete *)
    if String.eqb (job_status job) "completed" then ret (Return job)
    (* Check if job failed *)
    else if String.eqb (job_status job) "failed"
    then throw (Error ("Job failed: " +:+ Js.or_str (job_error job) "Unknown error"))
    else
      (* Wait before next poll *)
      do! sleep env POLL_INTERVAL_MS in
      ret (Continue last.1 last.2).

(** The loop; [fuel] bounds the number of passes. *)
Fixpoint pollLoop (fuel : nat) (jobId : option string) (startTime : Z)
    (lastStatus : option string) (lastProgress : option Z) : M ApiData :=
  match fuel with
  | O => pending
  | S fuel' =>
      let! pass := pollIteration jobId startTime lastStatus lastProgress in
      match pass with
      | Return job => ret job
      | Continue lastStatus lastProgress =>
          pollLoop fuel' jobId startTime lastStatus lastProgress
      end
  end.

Definition pollJobStatus (fuel : nat) (jobId : option string) : M ApiData :=
  let! startTime := Date_now in
  pollLoop fuel jobId startTime None (Some 0).

(** ** downloadFile *)

(** [fs.createWriteStream(outputPath)]: creates or truncates the file,
    unless it cannot be opened, in which case the writer emits
    [error]. *)
Definition createWriteStream (outputPath : string) : M unit :=
  fun w =>
    match open_error env with
    | Some m => (Throw (Error m), w)
    | None => (Ok tt, set_fs (<[outputPath := []]> (fs w)) w)
    end.

(** The listener installed by [response.data.pipe(writer)]: the chunk
    is appended to the file. *)
Definition pipe_write (outputPath : string) (chunk : list Byte.byte) : M unit :=
  fun w => (Ok tt, set_fs (alter (fun content => content ++ chunk) outputPath (fs w)) w).

(** [fs.statSync(outputPath).size] *)
Definition statSync_size (outputPath : string) : M Z :=
  fun w =>
    match fs w !! outputPath with
    | Some content => (Ok (Z.of_nat (length content)), w)
    | None => (Throw (Error ("ENOENT: no such file or directory, stat " +:+ outputPath)), w)
    end.

(** The [data] handler of the promise executor; returns the new value
    of [downloadedBytes]. *)
Definition onData (totalBytes : option Z) (chunk : list Byte.byte)
    (downloadedBytes : Z) : M Z :=
  let downloadedBytes := downloadedBytes + Z.of_nat (length chunk) in
  do! (if Js.truthy_num totalBytes then
         let percentage := Js.round_div (100 * downloadedBytes) (default 0 totalBytes) in
         logProgress "Downloading video" percentage
       else ret tt) in
  ret downloadedBytes.

(** The events of the piped stream, in order, until the promise
    settles: [finish] resolves it with the size of the file, either
    [error] rejects it.  Nothing is done to the file on rejection. *)
Fixpoint streamEvents (events : list StreamEvent) (outputPath : string)
    (totalBytes : option Z) (downloadedBytes : Z) : M Z :=
  match events with
  | [] => pending
  | Data chunk :: rest =>
      do! pipe_write outputPath chunk in
      let! downloadedBytes := in_handler (onData totalBytes chunk downloadedBytes) in
      streamEvents rest outputPath totalBytes downloadedBytes
  | End_ :: _ => statSync_size outputPath
  | StreamError m :: _ => throw (Error m)
  | WriterError m :: _ => throw (Error m)
  end.

Definition downloadFile (url : option string) (outputPath : string) : M Z :=
  let! response :=
    axios_stream env
      {| cfg_method := "GET"; cfg_url := Js.template_str url; cfg_headers := ∅;
         cfg_data := None; cfg_timeout := 60000; cfg_stream := true |} in
  match response with
  | AxError e => throw (Error (err_message e))
  | AxResponse response =>
      do! createWriteStream outputPath in
      let downloadedBytes := 0 in
      let totalBytes := Js.parseInt10 (stream_headers response !! "content-length") in
      streamEvents (stream_events response) outputPath totalBytes downloadedBytes
  end.

(** ** testHealthEndpoint *)
Definition health_error_message (e : AxiosError) : string :=
  match err_response e with
  | Some res => "Health check failed with status " +:+ Js.String_of_number (res_status res)
  | None =>
      if bool_decide (err_code e = Some "ECONNREFUSED")
      then "Connection refused. Is the server running?"
      else if bool_decide (err_code e = Some "ETIMEDOUT")
      then "Connection timeout. Server may be down or unreachable."
      else "Health check failed: " +:+ err_message e
  end.

Definition testHealthEndpoint : M Health :=
  let! response :=
    axios_health env
      {| cfg_method := "GET"; cfg_url := Js.template_str REMOTE_URL +:+ "/health";
         cfg_headers := ∅; cfg_data := None; cfg_timeout := 10000; cfg_stream := false |} in
  match response with
  | AxResponse data => ret data
  | AxError e => throw (Error (health_error_message e))
  end.

(** ** testVideoGeneration *)

(** U+1F680, in UTF-8. *)
Definition rocket : string :=
  String (ascii_of_nat 240) (String (ascii_of_nat 159)
    (String (ascii_of_nat 154) (String (ascii_of_nat 128) EmptyString))).

Definition tweetBody (baseUrl : string) : string :=
  "Testing the video generation API on remote server!" +:+ nl +:+ nl
  +:+ "URL: " +:+ baseUrl +:+ nl +:+ nl
  +:+ "The deployment is working great! " +:+ rocket.

Definition requestBody (baseUrl : string) : json :=
  JObj [ ("theme", JStr "dark");
         ("profilePhotoUrl",
          JStr "https://pbs.twimg.com/profile_images/1590968738358079488/IY9Gx6Ok_400x400.jpg");
         ("profileName", JStr "Claude Code");
         ("username", JStr "anthropic");
         ("tweetBody", JStr (tweetBody baseUrl)) ].

Definition usage : M unit :=
  do! log "Error: No URL provided" in
  do! log "Usage:" in
  do! log "  node scripts/test-remote.js <API_URL>" in
  do! log "  node scripts/test-remote.js https://your-app.railway.app" in
  do! log "Examples:" in
  do! log "  node scripts/test-remote.js https://my-api.railway.app" in
  do! log "  node scripts/test-remote.js http://localhost:3000" in
  log "  node scripts/test-remote.js my-api.railway.app  (will add https://)".

(** The body of the [try] block after the check of [REMOTE_URL]. *)
Definition steps (fuel : nat) (testStartTime : Z) : M unit :=
  (* Validate configuration *)
  do! logStep "1/6" "Validating configuration" in
  let! baseUrl := lift (validateUrl REMOTE_URL) in
  do! logSuccess ("Remote URL: " +:+ baseUrl) in
  if negb (Js.truthy_str HMAC_SECRET)
  then throw (Error "HMAC_SECRET not found in environment variables. Please create a .env file.")
  else
  do! logInfo ("HMAC Secret: " +:+ Js.substring0 10 (default EmptyString HMAC_SECRET) +:+ "...") in
  do! logSuccess "Configuration valid" in
  (* Test health endpoint *)
  do! logStep "2/6" "Testing /health endpoint" in
  let! health := testHealthEndpoint in
  do! logSuccess "Server is healthy" in
  do! logInfo ("Service: " +:+ health_service health) in
  do! logInfo ("Version: " +:+ health_version health) in
  do! logInfo ("Uptime: " +:+ Js.String_of_number (health_uptime health) +:+ "s") in
  do! logInfo ("Worker: " +:+ (if worker_running health then "Running" else "Stopped")
               +:+ " (" +:+ Js.String_of_number (worker_currentJobs health) +:+ "/"
               +:+ Js.String_of_number (worker_maxConcurrentJobs health) +:+ " jobs)") in
  do! logInfo ("Jobs: " +:+ Js.String_of_number (jobs_pending health) +:+ " pending, "
               +:+ Js.String_of_number (jobs_processing health) +:+ " processing, "
               +:+ Js.String_of_number (jobs_completed health) +:+ " completed, "
               +:+ Js.String_of_number (jobs_failed health) +:+ " failed") in
  (* Create request body with sample tweet data *)
  do! logStep "3/6" "Creating video generation request" in
  let requestBody := requestBody baseUrl in
  do! logInfo "Sample tweet data:" in
  do! logInfo "  Theme: dark" in
  do! logInfo "  Profile: Claude Code (@anthropic)" in
  do! logInfo ("  Tweet: " +:+ dquote +:+ Js.substring0 50 (tweetBody baseUrl)
               +:+ "..." +:+ dquote) in
  (* Submit video generation request *)
  do! logStep "4/6" "Submitting request to /generate-video" in
  let! createResponse := makeAuthenticatedRequest "POST" "/generate-video" (Some requestBody) in
  do! logSuccess ("Job created: " +:+ Js.template_str (job_jobId createResponse)) in
  do! logInfo ("Status: " +:+ job_status createResponse) in
  do! logInfo ("Estimated time: "
               +:+ Js.or_str (job_estimatedCompletionTime createResponse) "30-60s") in
  (* Poll for completion *)
  do! logStep "5/6" "Polling job status" in
  let! completedJob := pollJobStatus fuel (job_jobId createResponse) in
  do! logSuccess "Job completed successfully!" in
  do! logInfo ("Download URL: " +:+ Js.template_str (job_downloadUrl completedJob)) in
  do! logInfo ("File Size: " +:+ formatBytes (job_fileSize completedJob)) in
  do! logInfo ("Duration: "
               +:+ default "undefined" (Js.String_of_number <$> job_duration completedJob)
               +:+ "s") in
  do! logInfo ("Resolution: " +:+ Js.template_str (job_resolution completedJob)) in
  do! logInfo ("Expires At: " +:+ toLocaleString (job_expiresAt completedJob)) in
  (* Download video *)
  do! logStep "6/6" "Downloading video" in
  do! logInfo ("Saving to: " +:+ OUTPUT_FILE) in
  let! fileSize := downloadFile (job_downloadUrl completedJob) OUTPUT_FILE in
  do! logSuccess "Video downloaded successfully!" in
  do! logInfo ("File size: " +:+ formatBytes (Some fileSize)) in
  do! logInfo ("Location: " +:+ OUTPUT_FILE) in
  (* Print summary *)
  let! now := Date_now in
  let totalTime := toFixed2 (now - testStartTime) in
  do! log "  Remote Test Completed Successfully!" in
  do! log ("Remote URL: " +:+ baseUrl) in
  do! log ("Total time: " +:+ totalTime +:+ "s") in
  log ("Output file: " +:+ OUTPUT_FILE).

(** [message.includes(needle)] *)
Fixpoint includes (needle message : string) : bool :=
  String.prefix needle message
  || match message with
     | EmptyString => false
     | String _ r => includes needle r
     end.

(** The [catch] block, up to [process.exit(1)]. *)
Definition report_failure (e : exn) : M unit :=
  let message := error_message e in
  do! log "  Remote Test Failed" in
  do! logError message in
  (* Provide helpful debugging info *)
  if includes "Network Error" message || includes "ECONNREFUSED" message
  then logWarning "Troubleshooting tips:"
  else if includes "401" message || includes "HMAC" message
  then logWarning "Authentication tips:"
  else if includes "Timeout" message
  then logWarning "Timeout tips:"
  else ret tt.

(** The exit code of the process, [None] while the script is still
    running (polling, or waiting for a download that never settles). *)
Definition testVideoGeneration (fuel : nat) : World -> option Z * World :=
  fun w =>
    let testStartTime := clock w in
    match log "  Video Generation API - Remote Server Test" w with
    | (_, w) =>
        if negb (Js.truthy_str REMOTE_URL)
        then (Some 1, (usage w).2)
        else
          match steps fuel testStartTime w with
          | (Ok _, w') => (Some 0, w')
          | (Throw e, w') => (Some 1, (report_failure e w').2)
          | (Abort e, w') => (Some 1, w')
          | (Pending, w') => (None, w')
          end
    end.

End Script.

End Client.

Export Client.


(* ===================================================================== *)
(** * Vocabulary of the statements                                       *)
(* ===================================================================== *)

Module Spec.

(** ** Strings *)

Fixpoint all_chars (p : ascii -> bool) (s : string) : bool :=
  match s with
  | EmptyString => true
  | String c r => p c && all_chars p r
  end.


Definition no_colon (c : ascii) : bool := negb (Ascii.eqb c ":").

Fixpoint ends_with_slash (s : string) : bool :=
  match s with
  | EmptyString => false
  | String c EmptyString => Ascii.eqb c "/"
  | String _ r => ends_with_slash r
  end.

(** ** validateUrl *)

(** What [validateUrl] hands to the URL parser: the input without its
    trailing slash, with the scheme added when that string has none. *)
Definition normal_form (input : string) : string :=
  let stripped := Js.replace_trailing_slash input in
  if negb (Js.startsWith "http://" stripped) && negb (Js.startsWith "https://" stripped)
  then "https://" +:+ stripped
  else stripped.

(** The same with the scheme decided on the input itself. *)
Definition normal_form_by_input (input : string) : string :=
  let stripped := Js.replace_trailing_slash input in
  if negb (Js.startsWith "http://" input) && negb (Js.startsWith "https://" input)
  then "https://" +:+ stripped
  else stripped.

(** [validateUrl] returns the form decided on the input when the parser
    accepts it, and throws when it does not. *)
Definition validateUrl_by_input (urlParses : string -> bool) : Prop :=
  forall (c : ascii) (r : string),
    match validateUrl urlParses (Some (String c r)) with
    | Ok url => url = normal_form_by_input (String c r) /\ urlParses url = true
    | Throw _ => urlParses (normal_form_by_input (String c r)) = false
    | _ => False
    end.

(** ** Signing *)

(** The string that is signed. *)
Definition signed_message (timestamp : Z) (body : json) : string :=
  Js.String_of_number timestamp +:+ ":" +:+ stringify body.

(** The HMAC-SHA256 tag of [message] under [key], as a number. *)
Definition hmac_sha256_tag (key message : string) : Z :=
  Crypto.hmac_sha256_number (Crypto.bytes_of_string key) (Crypto.bytes_of_string message).

(** The lowercase hexadecimal HMAC-SHA256 digest of [message] under
    [key]. *)
Definition hmac_sha256_hex (key message : string) : string :=
  Crypto.hex_of_number 64 (hmac_sha256_tag key message).

(** Timestamp binding and body binding for all timestamps and bodies. *)
Definition binding_for_all (secret : string) : Prop :=
  (forall B T1 T2, T1 <> T2 ->
     generateSignature (Some secret) T1 B <> generateSignature (Some secret) T2 B)
  /\ (forall T B1 B2, B1 <> B2 ->
     generateSignature (Some secret) T B1 <> generateSignature (Some secret) T B2).

(** A family of pairwise distinct request bodies. *)
Definition numbered_body (i : Z) : json :=
  JObj [("tweetBody", JStr (Js.String_of_number i))].

Definition signing_error : exn :=
  Error "HMAC_SECRET environment variable is not set".

Definition secret_missing_error : exn :=
  Error "HMAC_SECRET not found in environment variables. Please create a .env file.".

(** ** Worlds *)

(** [w] with [os] appended to the console. *)
Definition printed (os : list Output) (w : World) : World :=
  {| clock := clock w; sent := sent w; api_calls := api_calls w;
     naps := naps w; out := out w ++ os; fs := fs w |}.

(** ** Authenticated requests *)

(** A request, sent at the time [request.1], of a call made at [now]
    with [body]: it carries the timestamp of the call and is signed, if
    at all, over that timestamp and the body it carries. *)
Definition consistently_signed (HMAC_SECRET : option string) (now : Z)
    (body : option json) (request : Z * RequestConfig) : Prop :=
  let timestamp := now / 1000 in
  let headers := cfg_headers request.2 in
  request.1 = now
  /\ headers !! "X-Timestamp" = Some (Js.String_of_number timestamp)
  /\ (is_Some (headers !! "X-Signature") <-> is_Some body)
  /\ cfg_data request.2 = body
  /\ (forall signature, headers !! "X-Signature" = Some signature ->
        exists b, body = Some b
                  /\ generateSignature HMAC_SECRET timestamp b = Ok signature).

(** ** Polling *)

Definition timeout_error : exn :=
  Error "Timeout: Job did not complete within 5 minutes".

Definition failure_of (job : ApiData) : exn :=
  Error ("Job failed: " +:+ Js.or_str (job_error job) "Unknown error").

(** The test of the first [if] of the loop body. *)
Definition changed (job : ApiData) (lastStatus : option string)
    (lastProgress : option Z) : bool :=
  negb (bool_decide (Some (job_status job) = lastStatus))
  || negb (bool_decide (job_progress job = lastProgress)).

(** What a status response shows on the console when it differs from the
    last one. *)
Definition observation (job : ApiData) : list Output :=
  if String.eqb (job_status job) "processing" && Js.truthy_str (job_currentStep job)
  then OutProgress (default EmptyString (job_currentStep job)) (Js.or_num (job_progress job) 0)
       :: (if Js.or_num (job_progress job) 0 >=? 100 then [OutNewline] else [])
  else if String.eqb (job_status job) "pending"
  then [OutInfo "Job is pending..."]
  else [].

(** Progress values for which the bar can be drawn. *)
Definition drawable (job : ApiData) : Prop :=
  -1 <= Js.or_num (job_progress job) 0 <= 101.

(** Progress values of the data model. *)
Definition percent (job : ApiData) : Prop :=
  0 <= Js.or_num (job_progress job) 0 <= 100.

(** Something is printed by the first [if] of the loop body exactly when
    status or progress differ from the last ones. *)
Definition printed_iff_changed : Prop :=
  forall job lastStatus lastProgress w,
    out (showProgressIfChanged job lastStatus lastProgress w).2 <> out w
    <-> changed job lastStatus lastProgress = true.

Section WithEnv.
Variable REMOTE_URL : option string.
Variable env : Env.

Definition after_api_call (c : RequestConfig) (w : World) : World :=
  advance (Z.of_N (api_reply env (api_calls w)).1) (count_api_call (record_request c w)).

Definition after_nap (w : World) : World :=
  advance (POLL_INTERVAL_MS + Z.of_N (timer_lag env (naps w))) (count_nap w).

Definition api_outcome (r : AxiosResult ApiData) : Outcome ApiData :=
  match r with
  | AxResponse data => Ok data
  | AxError e => Throw (Error (api_error_message e))
  end.

Definition status_request (jobId : option string) (w : World) : RequestConfig :=
  base_config "GET" (Js.template_str REMOTE_URL +:+ "/job/" +:+ Js.template_str jobId)
              (clock w / 1000).

(** The server answers every status request with a pending job. *)
Definition always_pending : Prop :=
  forall n, exists job, (api_reply env n).2 = AxResponse job /\ job_status job = "pending".

(** What holds of every run of the loop, started at [start], that goes
    from [w] to [w'] with result [r]: time and the count of calls do
    not go back; every request was sent within the deadline; a timeout
    is thrown after the deadline only; a failed job ends the run at
    once. *)
Definition run_facts (start : Z) (w : World) (r : Outcome ApiData) (w' : World) : Prop :=
  clock w <= clock w'
  /\ (api_calls w <= api_calls w')%nat
  /\ (exists requests,
        sent w' = sent w ++ requests
        /\ length requests = (api_calls w' - api_calls w)%nat
        /\ Forall (fun request => request.1 - start <= MAX_TIMEOUT_MS) requests)
  /\ (r = Throw timeout_error -> clock w' - start > MAX_TIMEOUT_MS)
  /\ (forall n job,
        (api_calls w <= n < api_calls w')%nat ->
        (api_reply env n).2 = AxResponse job ->
        job_status job = "failed" ->
        r = Throw (failure_of job) /\ api_calls w' = S n).

End WithEnv.

(** ** Downloads *)

(** The values [downloadedBytes] takes, one per chunk. *)
Fixpoint counts_from (downloadedBytes : Z) (chunks : list (list Byte.byte)) : list Z :=
  match chunks with
  | [] => []
  | chunk :: rest =>
      let downloadedBytes := downloadedBytes + Z.of_nat (length chunk) in
      downloadedBytes :: counts_from downloadedBytes rest
  end.

(** What the [data] handler prints for a count. *)
Definition report (totalBytes : option Z) (count : Z) : list Output :=
  if Js.truthy_num totalBytes then
    let percentage := Js.round_div (100 * count) (default 0 totalBytes) in
    OutProgress "Downloading video" percentage
      :: (if percentage >=? 100 then [OutNewline] else [])
  else [].

(** The count stays within the announced total, when there is one. *)
Definition fits (totalBytes : option Z) (count : Z) : Prop :=
  match totalBytes with
  | Some total => count <= total
  | None => True
  end.


End Spec.

Export Spec.

(* ===================================================================== *)
(** * Sample runs                                                        *)
(* ===================================================================== *)

Module Sample.

Definition world0 : World :=
  {| clock := 1700000000000; sent := []; api_calls := 0; naps := 0; out := []; fs := ∅ |}.

Definition job (status : string) (progress : option Z) (step error : option string) : ApiData :=
  {| job_jobId := None; job_status := status; job_estimatedCompletionTime := None;
     job_progress := progress; job_currentStep := step; job_error := error;
     job_downloadUrl := None; job_fileSize := None; job_duration := None;
     job_resolution := None; job_expiresAt := None |}.

Definition job_pending : ApiData := job "pending" (Some 0) None None.
Definition job_processing (p : Z) : ApiData := job "processing" (Some p) (Some "Encoding") None.
Definition job_failed : ApiData := job "failed" (Some 60) None (Some "encode crashed").
Definition job_completed : ApiData :=
  {| job_jobId := None; job_status := "completed"; job_estimatedCompletionTime := None;
     job_progress := Some 100; job_currentStep := None; job_error := None;
     job_downloadUrl := Some "https://api.example.com/videos/42.mp4";
     job_fileSize := Some 4; job_duration := Some 45;
     job_resolution := Some "1080x1920"; job_expiresAt := Some 1700003600000 |}.

Definition no_reply {D} : N * AxiosResult D :=
  (0%N, AxError {| err_response := None; err_request := true; err_code := None;
                   err_message := "socket hang up" |}).

(** A server that answers the status requests with [jobs], in order, and
    with the last of them ever after; every call takes 120 ms. *)
Definition server (jobs : list ApiData) (last : ApiData) : Env :=
  {| health_reply := no_reply;
     api_reply := fun n => (120%N, AxResponse (nth n jobs last));
     download_reply := no_reply;
     timer_lag := fun _ => 3%N;
     open_error := None |}.

Definition server_completing : Env :=
  server [job_pending; job_processing 10; job_processing 60] job_completed.

Definition server_failing : Env := server [job_pending; job_processing 10] job_failed.

Definition server_stuck : Env := server [] job_pending.

(** A download of the events [events], announced with [contentLength]. *)
Definition download (contentLength : string) (events : list StreamEvent) : Env :=
  {| health_reply := no_reply;
     api_reply := fun _ => no_reply;
     download_reply :=
       (40%N, AxResponse {| stream_headers := {["content-length" := contentLength]};
                            stream_events := events |});
     timer_lag := fun _ => 0%N;
     open_error := None |}.

Definition bytes4 : list Byte.byte := [Byte.x00; Byte.x01; Byte.x02; Byte.x03].


Definition download_complete : Env :=
  download "4" [Data bytes4; End_].

Definition download_in_chunks : Env :=
  download "4" [Data [Byte.x00; Byte.x01]; Data [Byte.x02]; Data [Byte.x03]; End_].

End Sample.

(* ===================================================================== *)
(** * Further vocabulary: pacing, requests, scenarios                    *)
(* ===================================================================== *)

Module Vocabulary.

(** First request not before [t], each further one at least one poll
    interval after the one before. *)
Fixpoint paced_from (t : Z) (times : list Z) : Prop :=
  match times with
  | [] => True
  | t1 :: rest => t <= t1 /\ paced_from (t1 + POLL_INTERVAL_MS) rest
  end.

(** The latest a timeout is noticed, counted from the start of the
    polling: the check is made once per pass, and a pass takes a request
    of at most [L] ms and a nap that oversleeps by at most [G] ms. *)
Definition lateness_bound (L G : Z) : Z := MAX_TIMEOUT_MS + POLL_INTERVAL_MS + L + G.

(** The [data] handler draws the bar for this count, or prints nothing
    for want of a total. *)
Definition report_drawn (totalBytes : option Z) (count : Z) : Prop :=
  Js.truthy_num totalBytes = true ->
  -1 <= Js.round_div (100 * count) (default 0 totalBytes) <= 101.

(** The request of [downloadFile]. *)
Definition download_request (url : option string) : RequestConfig :=
  {| cfg_method := "GET"; cfg_url := Js.template_str url; cfg_headers := ∅;
     cfg_data := None; cfg_timeout := 60000; cfg_stream := true |}.

(** The request of [testHealthEndpoint]. *)
Definition health_request (url : option string) : RequestConfig :=
  {| cfg_method := "GET"; cfg_url := Js.template_str url +:+ "/health";
     cfg_headers := ∅; cfg_data := None; cfg_timeout := 10000; cfg_stream := false |}.

End Vocabulary.

Export Vocabulary.

Module Scenario.

(** The second status request gets no response. *)
Definition server_dropping : Env :=
  {| health_reply := Sample.no_reply;
     api_reply := fun n =>
       match n with
       | 1%nat => Sample.no_reply
       | _ => (120%N, AxResponse Sample.job_pending)
       end;
     download_reply := Sample.no_reply;
     timer_lag := fun _ => 3%N;
     open_error := None |}.

(** The server reports a progress of 150%. *)
Definition server_overshooting : Env :=
  Sample.server [Sample.job_processing 150] Sample.job_completed.

(** Four bytes arrive of the ten announced, and the stream ends. *)
Definition download_short : Env := Sample.download "10" [Data Sample.bytes4; End_].


(** A response without a [content-length] header. *)
Definition download_unannounced : Env :=
  {| health_reply := Sample.no_reply;
     api_reply := fun _ => Sample.no_reply;
     download_reply :=
       (40%N, AxResponse {| stream_headers := ∅;
                            stream_events := [Data Sample.bytes4; End_] |});
     timer_lag := fun _ => 0%N;
     open_error := None |}.

Definition healthy : Health :=
  {| health_service := "video-renderer"; health_version := "1.0.0"; health_uptime := 512;
     worker_running := true; worker_currentJobs := 0; worker_maxConcurrentJobs := 2;
     jobs_pending := 0; jobs_processing := 0; jobs_completed := 7; jobs_failed := 0 |}.

Definition job_created : ApiData :=
  {| job_jobId := Some "job-1"; job_status := "pending";
     job_estimatedCompletionTime := None;
     job_progress := None; job_currentStep := None; job_error := None;
     job_downloadUrl := None; job_fileSize := None; job_duration := None;
     job_resolution := None; job_expiresAt := None |}.

(** A server on which the whole test succeeds: healthy, the job is
    created, pending at the first status request, half done at the second
    and completed at the third, and the video has four bytes. *)
Definition server_working : Env :=
  {| health_reply := (15%N, AxResponse healthy);
     api_reply := fun n =>
       (120%N,
        AxResponse (nth n [job_created; Sample.job_pending; Sample.job_processing 50]
                      Sample.job_completed));
     download_reply :=
       (40%N, AxResponse {| stream_headers := {["content-length" := "4"]};
                            stream_events := [Data Sample.bytes4; End_] |});
     timer_lag := fun _ => 3%N;
     open_error := None |}.

End Scenario.

(* ===================================================================== *)
(** * Test vectors                                                       *)
(* ===================================================================== *)

(** FIPS 180-4 examples for SHA-256, and test case 2 of RFC 4231 for
    HMAC-SHA256, run through the [Hmac] object. *)

Example sha256_abc :
  Crypto.sha256_hex "abc"
  = "ba7816bf8f01cfea414140de5dae2223b00361a396177a9cb410ff61f20015ad".
Proof. vm_compute. reflexivity. Qed.

Example sha256_two_blocks :
  Crypto.sha256_hex "abcdbcdecdefdefgefghfghighijhijkijkljklmklmnlmnomnopnopq"
  = "248d6a61d20638b8e5c026930c3e6039a33ce45964ff2167f6ecedd419db06c1".
Proof. vm_compute. reflexivity. Qed.

Example hmac_rfc4231_case2 :
  Crypto.digest_hex
    (Crypto.update (Crypto.createHmac_sha256 "Jefe") "what do ya want for nothing?")
  = "5bdcc146bf60754e6a042426089575c75a003f089d2739839dec58b964ec3843".
Proof. vm_compute. reflexivity. Qed.

Example stringify_object :
  stringify (JObj [("theme", JStr "dark"); ("n", JNum (-12)); ("l", JArr [JBool true; JNull])])
  = "{" +:+ quote "theme" +:+ ":" +:+ quote "dark" +:+ ","
        +:+ quote "n" +:+ ":-12," +:+ quote "l" +:+ ":[true,null]}".
Proof. reflexivity. Qed.

(* ===================================================================== *)
(** * Strings and numerals                                               *)
(* ===================================================================== *)

Section StringFacts.

Lemma append_cons (a : ascii) (p t : string) : String a p +:+ t = String a (p +:+ t).
Proof. reflexivity. Qed.

Lemma append_empty_r (a : string) : a +:+ EmptyString = a.
Proof. induction a as [|x a IH]; [reflexivity|]. rewrite append_cons, IH. reflexivity. Qed.

Lemma append_assoc (a b c : string) : (a +:+ b) +:+ c = a +:+ (b +:+ c).
Proof. induction a as [|x a IH]; [reflexivity|]. rewrite !append_cons, IH. reflexivity. Qed.

Lemma prefix_split (p s : string) :
  String.prefix p s = true -> exists t, s = p +:+ t.
Proof.
  revert s. induction p as [|a p IH]; intros s H.
  - exists s. reflexivity.
  - destruct s as [|b s]; [discriminate|].
    cbn in H. destruct (ascii_dec a b) as [->|]; [|discriminate].
    destruct (IH _ H) as [t ->]. exists t. reflexivity.
Qed.

Lemma prefix_append (p t : string) : String.prefix p (p +:+ t) = true.
Proof.
  induction p as [|a p IH]; [destruct t; reflexivity|].
  rewrite append_cons. cbn. destruct (ascii_dec a a); [exact IH|congruence].
Qed.

Lemma prefix_weaken (p s t : string) :
  String.prefix p s = true -> String.prefix p (s +:+ t) = true.
Proof.
  intros H. destruct (prefix_split _ _ H) as [u ->].
  rewrite append_assoc. apply prefix_append.
Qed.

(** The regular expression [/\/$/] removes one slash at the end ... *)
Lemma replace_trailing_slash_slash (s : string) :
  Js.replace_trailing_slash (s +:+ "/") = s.
Proof.
  induction s as [|c s IH]; [reflexivity|].
  rewrite append_cons.
  destruct s as [|c' s']; [reflexivity|].
  rewrite append_cons in *.
  change (String c (Js.replace_trailing_slash (String c' (s' +:+ "/")))
          = String c (String c' s')).
  f_equal. exact IH.
Qed.

(** ... and leaves a string that does not end with a slash as it is. *)
Lemma replace_trailing_slash_none (s : string) :
  ends_with_slash s = false -> Js.replace_trailing_slash s = s.
Proof.
  induction s as [|c s IH]; [reflexivity|].
  destruct s as [|c' s'].
  - cbn. intros ->. reflexivity.
  - intros H.
    change (String c (Js.replace_trailing_slash (String c' s')) = String c (String c' s')).
    f_equal. apply IH. exact H.
Qed.

Lemma replace_trailing_slash_append (p : string) (c : ascii) (t : string) :
  Js.replace_trailing_slash (p +:+ String c t)
  = p +:+ Js.replace_trailing_slash (String c t).
Proof.
  induction p as [|a p IH]; [reflexivity|].
  rewrite append_cons.
  destruct p as [|a' p']; [reflexivity|].
  rewrite append_cons in *.
  change (String a (Js.replace_trailing_slash (String a' (p' +:+ String c t)))
          = String a (String a' p' +:+ Js.replace_trailing_slash (String c t))).
  f_equal. exact IH.
Qed.

Lemma replace_trailing_slash_prefix (s : string) :
  exists t, s = Js.replace_trailing_slash s +:+ t.
Proof.
  induction s as [|a s IH]; [exists EmptyString; reflexivity|].
  destruct s as [|b s'].
  - cbn. destruct (Ascii.eqb a "/");
      [exists (String a EmptyString)|exists EmptyString]; reflexivity.
  - destruct IH as [t Ht]. exists t.
    change (String a (String b s')
            = String a (Js.replace_trailing_slash (String b s') +:+ t)).
    f_equal. exact Ht.
Qed.

(** Removing the trailing slash changes whether the string starts with
    [p] only when the string is [p] itself. *)
Lemma startsWith_after_strip (p s : string) :
  s <> p -> Js.startsWith p (Js.replace_trailing_slash s) = Js.startsWith p s.
Proof.
  intros Hne. unfold Js.startsWith.
  destruct (String.prefix p s) eqn:Hs.
  - destruct (prefix_split _ _ Hs) as [t ->].
    destruct t as [|c t].
    + exfalso. apply Hne. apply append_empty_r.
    + rewrite replace_trailing_slash_append. apply prefix_append.
  - destruct (String.prefix p (Js.replace_trailing_slash s)) eqn:Hr; [|reflexivity].
    destruct (replace_trailing_slash_prefix s) as [t Ht].
    rewrite Ht in Hs. rewrite (prefix_weaken _ _ t Hr) in Hs. discriminate.
Qed.

Lemma to_int_normal (n : Z) : Decimal.norm (Z.to_int n) = Z.to_int n.
Proof. rewrite <- (DecimalZ.to_of (Z.to_int n)), DecimalZ.of_to. reflexivity. Qed.

Lemma to_int_not_nil (n : Z) :
  Z.to_int n <> Decimal.Pos Decimal.Nil /\ Z.to_int n <> Decimal.Neg Decimal.Nil.
Proof.
  pose proof (to_int_normal n) as Hn.
  split; intros E; rewrite E in Hn; discriminate Hn.
Qed.

(** [String(n)] is the decimal numeral of [n]: reading it gives [n]. *)
Lemma String_of_number_decimal (n : Z) :
  Z.of_int <$> NilZero.int_of_string (Js.String_of_number n) = Some n.
Proof.
  unfold Js.String_of_number. destruct (to_int_not_nil n) as [H1 H2].
  rewrite (NilZero.isi _ H1 H2). cbn. rewrite DecimalZ.of_to. reflexivity.
Qed.

(** Distinct integers have distinct numerals. *)
Lemma String_of_number_inj (n m : Z) :
  Js.String_of_number n = Js.String_of_number m -> n = m.
Proof.
  intros H. pose proof (String_of_number_decimal n) as Hn.
  rewrite H, String_of_number_decimal in Hn. congruence.
Qed.

Lemma string_of_uint_no_colon (d : Decimal.uint) :
  all_chars no_colon (NilEmpty.string_of_uint d) = true.
Proof. induction d; cbn; auto. Qed.

Lemma String_of_number_no_colon (n : Z) :
  all_chars no_colon (Js.String_of_number n) = true.
Proof.
  unfold Js.String_of_number, NilZero.string_of_int, NilZero.string_of_uint.
  destruct (Z.to_int n) as [d|d]; destruct d; cbn [all_chars]; try reflexivity;
    cbn [no_colon Ascii.eqb Bool.eqb negb andb];
    match goal with |- context [NilEmpty.string_of_uint ?u] =>
      exact (string_of_uint_no_colon u) end.
Qed.

(** Two strings without colon, each followed by a colon and a rest. *)
Lemma split_at_colon (a b x y : string) :
  all_chars no_colon a = true -> all_chars no_colon b = true ->
  a +:+ ":" +:+ x = b +:+ ":" +:+ y -> a = b /\ x = y.
Proof.
  revert b. induction a as [|c a IH]; intros b Ha Hb E.
  - destruct b as [|c' b].
    + injection E as E. auto.
    + rewrite append_cons in E. injection E as Ec E. subst c'. cbn in Hb. discriminate.
  - destruct b as [|c' b].
    + rewrite append_cons in E. injection E as Ec E. subst c. cbn in Ha. discriminate.
    + rewrite !append_cons in E. injection E as Ec E. subst c'.
      cbn [all_chars] in Ha, Hb. apply andb_true_iff in Ha, Hb.
      destruct (IH b) as [-> ->]; [tauto|tauto|exact E|]. auto.
Qed.

End StringFacts.

(* ===================================================================== *)
(** * Digests                                                            *)
(* ===================================================================== *)

Section DigestFacts.

Lemma wrap32_range (x : Z) : 0 <= Crypto.wrap32 x < 4294967296.
Proof.
  unfold Crypto.wrap32. change (2 ^ 32) with 4294967296.
  apply Z.mod_pos_bound. lia.
Qed.

(** A digest is a number below [2 ^ 256]. *)
Lemma number_of_state_range (s : Crypto.state) :
  0 <= Crypto.number_of_state s < 2 ^ 256.
Proof.
  unfold Crypto.number_of_state, Crypto.words_of_state. cbn [fold_left].
  change (2 ^ 32) with 4294967296.
  change (2 ^ 256) with (4294967296 * 4294967296 * 4294967296 * 4294967296
                         * 4294967296 * 4294967296 * 4294967296 * 4294967296).
  pose proof (wrap32_range (Crypto.sa s)). pose proof (wrap32_range (Crypto.sb s)).
  pose proof (wrap32_range (Crypto.sc s)). pose proof (wrap32_range (Crypto.sd s)).
  pose proof (wrap32_range (Crypto.se s)). pose proof (wrap32_range (Crypto.sf s)).
  pose proof (wrap32_range (Crypto.sg s)). pose proof (wrap32_range (Crypto.sh s)).
  lia.
Qed.

Lemma hmac_sha256_tag_range (key message : string) :
  0 <= hmac_sha256_tag key message < 2 ^ 256.
Proof. apply number_of_state_range. Qed.

Lemma hex_digit_code (d : Z) :
  0 <= d < 16 ->
  Z.of_nat (nat_of_ascii (Crypto.hex_digit d)) = if d <? 10 then 48 + d else 87 + d.
Proof.
  intros H. unfold Crypto.hex_digit. rewrite nat_ascii_embedding.
  - rewrite Z2Nat.id; [reflexivity|]. destruct (d <? 10); lia.
  - destruct (d <? 10); lia.
Qed.


Lemma hex_digit_inj (d e : Z) :
  0 <= d < 16 -> 0 <= e < 16 -> Crypto.hex_digit d = Crypto.hex_digit e -> d = e.
Proof.
  intros Hd He E. apply (f_equal (fun c => Z.of_nat (nat_of_ascii c))) in E.
  rewrite !hex_digit_code in E by assumption.
  destruct (Z.ltb_spec d 10), (Z.ltb_spec e 10); lia.
Qed.



(** The [k] hexadecimal digits determine the number modulo [16 ^ k]. *)
Lemma hex_of_number_mod (k : nat) (x y : Z) :
  Crypto.hex_of_number k x = Crypto.hex_of_number k y ->
  x mod 16 ^ Z.of_nat k = y mod 16 ^ Z.of_nat k.
Proof.
  induction k as [|k IH]; intros E.
  - cbn. rewrite !Z.mod_1_r. reflexivity.
  - cbn [Crypto.hex_of_number] in E. injection E as Ed Er.
    apply hex_digit_inj in Ed; [|apply Z.mod_pos_bound; lia|apply Z.mod_pos_bound; lia].
    specialize (IH Er).
    rewrite Nat2Z.inj_succ, Z.pow_succ_r by lia.
    rewrite (Z.mul_comm 16).
    assert (Hpos : 0 < 16 ^ Z.of_nat k) by (apply Z.pow_pos_nonneg; lia).
    rewrite !Z.rem_mul_r by lia. rewrite IH, Ed. reflexivity.
Qed.

Lemma hex_of_number_inj (x y : Z) :
  0 <= x < 2 ^ 256 -> 0 <= y < 2 ^ 256 ->
  Crypto.hex_of_number 64 x = Crypto.hex_of_number 64 y -> x = y.
Proof.
  intros Hx Hy E. apply hex_of_number_mod in E.
  change (16 ^ Z.of_nat 64) with (2 ^ 256) in E.
  rewrite !Z.mod_small in E by assumption. exact E.
Qed.

(** More pigeons than holes: no function from [0 .. M] to [0 .. M - 1]
    is injective. *)
Lemma pigeonhole (M : Z) :
  0 <= M ->
  forall f : Z -> Z,
    (forall i, 0 <= i <= M -> 0 <= f i < M) ->
    (forall i j, 0 <= i <= M -> 0 <= j <= M -> f i = f j -> i = j) ->
    False.
Proof.
  intros HM. pattern M. apply natlike_ind; [| |exact HM]; clear M HM.
  - intros f Hr _. specialize (Hr 0). lia.
  - intros M HM IH f Hr Hinj.
    apply (IH (fun i => if f i <? f (Z.succ M) then f i else f i - 1)).
    + intros i Hi. pose proof (Hr i) as Hri. pose proof (Hr (Z.succ M)) as Hrm.
      assert (f i <> f (Z.succ M)) by (intros E; apply Hinj in E; lia).
      destruct (Z.ltb_spec (f i) (f (Z.succ M))); lia.
    + intros i j Hi Hj E. apply Hinj; [lia|lia|].
      pose proof (Hr i) as Hri. pose proof (Hr j) as Hrj.
      assert (f i <> f (Z.succ M)) by (intros E'; apply Hinj in E'; lia).
      assert (f j <> f (Z.succ M)) by (intros E'; apply Hinj in E'; lia).
      destruct (Z.ltb_spec (f i) (f (Z.succ M))), (Z.ltb_spec (f j) (f (Z.succ M))); lia.
Qed.

Lemma Ok_inj {A} (a b : A) : Ok a = Ok b -> a = b.
Proof. intros [= ->]. reflexivity. Qed.

Lemma generateSignature_some (c : ascii) (r : string) (t : Z) (B : json) :
  generateSignature (Some (String c r)) t B
  = Ok (hmac_sha256_hex (String c r) (signed_message t B)).
Proof.
  unfold generateSignature, hmac_sha256_hex, hmac_sha256_tag, signed_message,
    Crypto.digest_hex, Crypto.update, Crypto.createHmac_sha256.
  cbn [Crypto.hmac_key Crypto.hmac_data app]. reflexivity.
Qed.

End DigestFacts.

(* ===================================================================== *)
(** * Console output                                                     *)
(* ===================================================================== *)

Ltac world_simpl :=
  cbn [clock sent api_calls naps out fs printed after_api_call after_nap advance
       count_api_call record_request count_nap set_fs fst snd] in *.

Section ConsoleFacts.

Lemma printed_nil w : printed [] w = w.
Proof. destruct w; unfold printed; cbn. rewrite app_nil_r. reflexivity. Qed.

Lemma printed_printed a b w : printed b (printed a w) = printed (a ++ b) w.
Proof. unfold printed; cbn. rewrite app_assoc. reflexivity. Qed.

Lemma emit_printed o w : emit o w = (Ok tt, printed [o] w).
Proof. reflexivity. Qed.

(** The bar has between 0 and 30 filled cells for a percentage between
    -1 and 101, and only then. *)
Lemma round_div_bar (p : Z) :
  -1 <= p <= 101 -> 0 <= Js.round_div (30 * p) 100 <= 30.
Proof.
  intros H. unfold Js.round_div. split.
  - apply Z.div_pos; lia.
  - apply Z.lt_succ_r. apply Z.div_lt_upper_bound; lia.
Qed.

Lemma logProgress_ok (message : string) (p : Z) (w : World) :
  -1 <= p <= 101 ->
  logProgress message p w
  = (Ok tt, printed (OutProgress message p :: (if p >=? 100 then [OutNewline] else [])) w).
Proof.
  intros H. pose proof (round_div_bar p H) as Hb.
  unfold logProgress, repeat_check, bind.
  destruct (Z.ltb_spec (Js.round_div (30 * p) 100) 0); [lia|].
  destruct (Z.ltb_spec (30 - Js.round_div (30 * p) 100) 0); [lia|].
  unfold ret. cbv beta iota. rewrite emit_printed.
  destruct (p >=? 100).
  - rewrite emit_printed, printed_printed. reflexivity.
  - reflexivity.
Qed.

Lemma percentage_range (count total : Z) :
  0 <= count <= total -> 0 < total -> 0 <= Js.round_div (100 * count) total <= 100.
Proof.
  intros Hc Ht. unfold Js.round_div. split.
  - apply Z.div_pos; lia.
  - apply Z.lt_succ_r. apply Z.div_lt_upper_bound; lia.
Qed.

Lemma usage_prints w : exists os, (usage w).2 = printed os w.
Proof.
  eexists. unfold usage, bind, log. cbn. unfold printed. cbn.
  rewrite <- !app_assoc. reflexivity.
Qed.

Lemma report_failure_prints e w :
  exists os,
    (report_failure e w).2
    = printed (OutLog "  Remote Test Failed" :: OutError (error_message e) :: os) w.
Proof.
  unfold report_failure, bind, log, logError, logWarning.
  cbn [emit fst snd].
  destruct (includes "Network Error" (error_message e)
            || includes "ECONNREFUSED" (error_message e)).
  { eexists. cbn. unfold printed. cbn. rewrite <- !app_assoc. reflexivity. }
  destruct (includes "401" (error_message e) || includes "HMAC" (error_message e)).
  { eexists. cbn. unfold printed. cbn. rewrite <- !app_assoc. reflexivity. }
  destruct (includes "Timeout" (error_message e)).
  { eexists. cbn. unfold printed. cbn. rewrite <- !app_assoc. reflexivity. }
  exists []. cbn. unfold printed. cbn. rewrite <- !app_assoc. reflexivity.
Qed.

End ConsoleFacts.

(* ===================================================================== *)
(** * One pass of the poll loop                                          *)
(* ===================================================================== *)

Section IterationFacts.

Lemma changed_status job ls lp :
  Some (job_status job) <> ls -> changed job ls lp = true.
Proof. intros H. unfold changed. rewrite bool_decide_eq_false_2 by exact H. reflexivity. Qed.

Lemma changed_progress job ls lp :
  job_progress job <> lp -> changed job ls lp = true.
Proof.
  intros H. unfold changed. rewrite (bool_decide_eq_false_2 _ H). apply orb_true_r.
Qed.

(** With a progress value the bar can draw, the first [if] of the loop
    body prints the observation of a changed response and remembers its
    status and progress. *)
Lemma showProgressIfChanged_ok job ls lp w :
  (job_status job = "processing" -> drawable job) ->
  showProgressIfChanged job ls lp w
  = if changed job ls lp
    then (Ok (Some (job_status job), job_progress job), printed (observation job) w)
    else (Ok (ls, lp), w).
Proof.
  intros Hd. unfold showProgressIfChanged, changed, observation.
  destruct (negb _ || negb _); [|reflexivity].
  unfold bind.
  destruct (String.eqb_spec (job_status job) "processing") as [Hs|Hs]; cbn [andb].
  - destruct (Js.truthy_str (job_currentStep job)).
    + rewrite logProgress_ok by exact (Hd Hs). reflexivity.
    + rewrite Hs. cbn. unfold ret. rewrite printed_nil. reflexivity.
  - destruct (String.eqb (job_status job) "pending").
    + unfold logInfo. rewrite emit_printed. reflexivity.
    + unfold ret. rewrite printed_nil. reflexivity.
Qed.

(** In every case it only prints, and it throws nothing but the
    [RangeError] of the bar, on a [processing] status. *)
Lemma showProgressIfChanged_frame job ls lp w :
  exists os,
    (showProgressIfChanged job ls lp w).2 = printed os w
    /\ match (showProgressIfChanged job ls lp w).1 with
       | Ok last =>
           last = (if changed job ls lp
                   then (Some (job_status job), job_progress job) else (ls, lp))
           /\ os = (if changed job ls lp then observation job else [])
       | Throw (RangeError _) => job_status job = "processing" /\ os = []
       | _ => False
       end.
Proof.
  unfold showProgressIfChanged, changed, observation.
  destruct (negb _ || negb _).
  2:{ exists []. rewrite printed_nil. cbn. auto. }
  unfold bind.
  destruct (String.eqb_spec (job_status job) "processing") as [Hs|Hs]; cbn [andb].
  - destruct (Js.truthy_str (job_currentStep job)).
    + unfold logProgress, repeat_check, bind.
      destruct (_ <? 0).
      { exists []. rewrite printed_nil. cbn. auto. }
      unfold ret at 1. cbv beta iota.
      destruct (_ <? 0).
      { exists []. rewrite printed_nil. cbn. auto. }
      unfold ret at 1. cbv beta iota. rewrite emit_printed.
      destruct (_ >=? 100).
      * rewrite emit_printed, printed_printed. eexists. cbn. eauto.
      * eexists. cbn. eauto.
    + rewrite Hs. cbn. exists []. rewrite printed_nil. auto.
  - destruct (String.eqb (job_status job) "pending").
    + unfold logInfo. rewrite emit_printed. eexists. cbn. eauto.
    + exists []. cbn. rewrite printed_nil. auto.
Qed.

Lemma observation_shown job :
  observation job <> []
  <-> job_status job = "pending"
      \/ (job_status job = "processing" /\ Js.truthy_str (job_currentStep job) = true).
Proof.
  unfold observation.
  destruct (String.eqb_spec (job_status job) "processing") as [Hp|Hp]; cbn [andb].
  - destruct (Js.truthy_str (job_currentStep job)).
    + split; [auto|discriminate].
    + rewrite Hp. cbn. split; [congruence|]. intros [H|[_ H]]; discriminate.
  - destruct (String.eqb_spec (job_status job) "pending") as [Hq|Hq].
    + split; [auto|discriminate].
    + split; [congruence|]. intros [H|[H _]]; contradiction.
Qed.

Variable REMOTE_URL : option string.
Variable HMAC_SECRET : option string.
Variable env : Env.

Lemma makeAuthenticatedRequest_bodiless method endpoint w :
  makeAuthenticatedRequest REMOTE_URL HMAC_SECRET env method endpoint None w
  = (api_outcome (api_reply env (api_calls w)).2,
     after_api_call env
       (base_config method (Js.template_str REMOTE_URL +:+ endpoint) (clock w / 1000)) w).
Proof.
  unfold makeAuthenticatedRequest, bind, Date_now, axios_api, after_api_call, api_outcome.
  cbn [Json.truthy]. unfold ret at 1. cbv beta iota.
  destruct (api_reply env (api_calls w)).2; reflexivity.
Qed.

(** Past the deadline, the pass throws before any request is made. *)
Lemma pollIteration_timeout jobId start ls lp w :
  clock w - start > MAX_TIMEOUT_MS ->
  pollIteration REMOTE_URL HMAC_SECRET env jobId start ls lp w = (Throw timeout_error, w).
Proof.
  intros H. unfold pollIteration, bind, Date_now.
  destruct (Z.gtb_spec (clock w - start) MAX_TIMEOUT_MS); [reflexivity|lia].
Qed.

(** Within the deadline, the pass makes one status request. *)
Lemma pollIteration_request jobId start ls lp w :
  clock w - start <= MAX_TIMEOUT_MS ->
  pollIteration REMOTE_URL HMAC_SECRET env jobId start ls lp w
  = let w1 := after_api_call env (status_request REMOTE_URL jobId w) w in
    match (api_reply env (api_calls w)).2 with
    | AxError e => (Throw (Error (api_error_message e)), w1)
    | AxResponse job =>
        match showProgressIfChanged job ls lp w1 with
        | (Ok last, w2) =>
            if String.eqb (job_status job) "completed" then (Ok (Return job), w2)
            else if String.eqb (job_status job) "failed"
            then (Throw (failure_of job), w2)
            else (Ok (Continue last.1 last.2), after_nap env w2)
        | (Throw e, w2) => (Throw e, w2)
        | (Abort e, w2) => (Abort e, w2)
        | (Pending, w2) => (Pending, w2)
        end
    end.
Proof.
  intros H. unfold pollIteration. unfold bind at 1. unfold Date_now.
  destruct (Z.gtb_spec (clock w - start) MAX_TIMEOUT_MS); [lia|].
  unfold bind at 1. rewrite makeAuthenticatedRequest_bodiless.
  fold (status_request REMOTE_URL jobId w). cbv zeta.
  destruct (api_reply env (api_calls w)).2 as [job|e]; cbn [api_outcome]; [|reflexivity].
  unfold bind at 1.
  destruct (showProgressIfChanged job ls lp _) as [[last| | |] w2]; try reflexivity.
  destruct (String.eqb (job_status job) "completed"); [reflexivity|].
  destruct (String.eqb (job_status job) "failed"); reflexivity.
Qed.

Lemma pollJobStatus_unfold fuel jobId w :
  pollJobStatus REMOTE_URL HMAC_SECRET env fuel jobId w
  = pollLoop REMOTE_URL HMAC_SECRET env fuel jobId (clock w) None (Some 0) w.
Proof. reflexivity. Qed.

Lemma api_error_not_timeout e : Error (api_error_message e) <> timeout_error.
Proof.
  unfold api_error_message, timeout_error.
  destruct (err_response e); [|destruct (err_request e)]; intros H; inversion H.
Qed.

Lemma failure_not_timeout job : failure_of job <> timeout_error.
Proof. unfold failure_of, timeout_error. intros H; inversion H. Qed.

End IterationFacts.

(* ===================================================================== *)
(** * Runs of the poll loop                                              *)
(* ===================================================================== *)

Section LoopFacts.

Variable REMOTE_URL : option string.
Variable HMAC_SECRET : option string.
Variable env : Env.

Lemma run_facts_still start w r :
  (r = Throw timeout_error -> clock w - start > MAX_TIMEOUT_MS) ->
  run_facts env start w r w.
Proof.
  intros H. unfold run_facts.
  split; [lia|]. split; [lia|].
  split.
  { exists []. rewrite app_nil_r. split; [reflexivity|]. split; [cbn; lia|constructor]. }
  split; [exact H|].
  intros n job Hn. lia.
Qed.

(** A run that starts with a request at [w] and goes on to [x]. *)
Lemma run_facts_request jobId start w x :
  clock w - start <= MAX_TIMEOUT_MS ->
  clock x = clock w + Z.of_N (api_reply env (api_calls w)).1 ->
  api_calls x = S (api_calls w) ->
  sent x = sent w ++ [(clock w, status_request REMOTE_URL jobId w)] ->
  clock w <= clock x
  /\ (api_calls w <= api_calls x)%nat
  /\ (exists requests,
        sent x = sent w ++ requests
        /\ length requests = (api_calls x - api_calls w)%nat
        /\ Forall (fun request => request.1 - start <= MAX_TIMEOUT_MS) requests).
Proof.
  intros Hintime Hc Ha Hs. rewrite Hc, Ha, Hs.
  split; [lia|]. split; [lia|].
  eexists. split; [reflexivity|]. split; [cbn; lia|].
  constructor; [cbn; lia|constructor].
Qed.

Lemma pollLoop_run jobId start fuel :
  forall ls lp w r w',
    pollLoop REMOTE_URL HMAC_SECRET env fuel jobId start ls lp w = (r, w') ->
    run_facts env start w r w'.
Proof.
  induction fuel as [|fuel IH]; intros ls lp w r w' Hrun.
  - cbn in Hrun. injection Hrun as <- <-.
    apply run_facts_still. discriminate.
  - cbn [pollLoop] in Hrun. unfold bind at 1 in Hrun.
    destruct (Z_gt_le_dec (clock w - start) MAX_TIMEOUT_MS) as [Hlate|Hintime].
    + rewrite pollIteration_timeout in Hrun by exact Hlate.
      injection Hrun as <- <-.
      apply run_facts_still. intros _. exact Hlate.
    + rewrite pollIteration_request in Hrun by exact Hintime. cbv zeta in Hrun.
      unfold run_facts.
      set (w1 := after_api_call env (status_request REMOTE_URL jobId w) w) in *.
      assert (Hreq : forall os,
                 clock w <= clock (printed os w1)
                 /\ (api_calls w <= api_calls (printed os w1))%nat
                 /\ (exists requests,
                       sent (printed os w1) = sent w ++ requests
                       /\ length requests = (api_calls (printed os w1) - api_calls w)%nat
                       /\ Forall (fun request => request.1 - start <= MAX_TIMEOUT_MS)
                            requests)).
      { intros os. apply (run_facts_request jobId); [exact Hintime|reflexivity..]. }
      assert (Hone : forall os n, (api_calls w <= n < api_calls (printed os w1))%nat ->
                                  n = api_calls w).
      { intros os n. subst w1. world_simpl. lia. }
      destruct (api_reply env (api_calls w)).2 as [job|e] eqn:Hreply.
      * destruct (showProgressIfChanged_frame job ls lp w1) as (os & Hw2 & Hres).
        destruct (showProgressIfChanged job ls lp w1) as [res w2].
        cbn [fst snd] in Hw2, Hres. subst w2.
        destruct (Hreq os) as (H1 & H2 & H3).
        destruct res as [last|e| |]; [| |contradiction|contradiction].
        -- destruct (String.eqb_spec (job_status job) "completed") as [Hdone|Hnotdone].
           { injection Hrun as <- <-.
             split; [exact H1|]. split; [exact H2|]. split; [exact H3|].
             split; [discriminate|].
             intros n j Hn Hj Hf. rewrite (Hone _ _ Hn), Hreply in Hj.
             injection Hj as <-. congruence. }
           destruct (String.eqb_spec (job_status job) "failed") as [Hfail|Hnotfail].
           { injection Hrun as <- <-.
             split; [exact H1|]. split; [exact H2|]. split; [exact H3|].
             split; [intros E; exfalso; apply (failure_not_timeout job); congruence|].
             intros n j Hn Hj Hf. rewrite (Hone _ _ Hn), Hreply in Hj.
             injection Hj as <-. split; [reflexivity|].
             rewrite (Hone _ _ Hn). reflexivity. }
           apply IH in Hrun. unfold run_facts in Hrun.
           destruct Hrun as (I1 & I2 & (requests & I3 & I4 & I5) & I6 & I7).
           clear H1 H2 H3 Hreq Hone. subst w1. world_simpl. unfold POLL_INTERVAL_MS in I1.
           split; [lia|]. split; [lia|].
           split.
           { exists ((clock w, status_request REMOTE_URL jobId w) :: requests).
             rewrite I3, <- app_assoc.
             split; [reflexivity|]. split; [cbn [length]; lia|].
             constructor; [cbn; lia|assumption]. }
           split; [exact I6|].
           intros n j Hn Hj Hf.
           destruct (Nat.eq_dec n (api_calls w)) as [->|Hne].
           { rewrite Hreply in Hj. injection Hj as <-. contradiction. }
           apply (I7 n j); [lia|assumption|assumption].
        -- injection Hrun as <- <-.
           destruct e as [m|m]; [contradiction|]. destruct Hres as [Hproc _].
           split; [exact H1|]. split; [exact H2|]. split; [exact H3|].
           split; [discriminate|].
           intros n j Hn Hj Hf. rewrite (Hone _ _ Hn), Hreply in Hj.
           injection Hj as <-. congruence.
      * injection Hrun as <- <-.
        destruct (Hreq []) as (H1 & H2 & H3). rewrite printed_nil in H1, H2, H3.
        split; [exact H1|]. split; [exact H2|]. split; [exact H3|].
        split; [intros E; exfalso; apply (api_error_not_timeout e); congruence|].
        intros n j Hn Hj Hf. specialize (Hone [] n). rewrite printed_nil in Hone.
        rewrite (Hone Hn), Hreply in Hj. discriminate.
Qed.

(** Against a server that stays pending, the loop throws the timeout as
    soon as it has fuel for the passes that fit into the deadline. *)
Lemma pollLoop_pending_times_out jobId start :
  always_pending env ->
  forall n fuel ls lp w,
    MAX_TIMEOUT_MS < clock w - start + Z.of_nat n * POLL_INTERVAL_MS ->
    (n < fuel)%nat ->
    exists w',
      pollLoop REMOTE_URL HMAC_SECRET env fuel jobId start ls lp w = (Throw timeout_error, w')
      /\ (api_calls w' <= api_calls w + n)%nat.
Proof.
  intros Hpending. induction n as [|n IH]; intros fuel ls lp w Hlate Hfuel;
    (destruct fuel as [|fuel]; [lia|]).
  - exists w. cbn [pollLoop]. unfold bind at 1.
    rewrite pollIteration_timeout by lia. split; [reflexivity|lia].
  - destruct (Z_gt_le_dec (clock w - start) MAX_TIMEOUT_MS) as [Hnow|Hintime].
    + exists w. cbn [pollLoop]. unfold bind at 1.
      rewrite pollIteration_timeout by lia. split; [reflexivity|lia].
    + cbn [pollLoop]. unfold bind at 1.
      rewrite pollIteration_request by exact Hintime. cbv zeta.
      destruct (Hpending (api_calls w)) as (job & -> & Hstatus).
      destruct (showProgressIfChanged_frame job ls lp
                  (after_api_call env (status_request REMOTE_URL jobId w) w))
        as (os & Hw2 & Hres).
      destruct (showProgressIfChanged job ls lp _) as [res w2].
      cbn [fst snd] in Hw2, Hres. subst w2.
      destruct res as [last|e| |]; [| |contradiction|contradiction].
      * rewrite Hstatus. cbn [String.eqb Ascii.eqb Bool.eqb].
        destruct (IH fuel last.1 last.2
                    (after_nap env
                       (printed os
                          (after_api_call env (status_request REMOTE_URL jobId w) w))))
          as (w' & Hrun & Hcalls).
        { world_simpl. unfold POLL_INTERVAL_MS in *. lia. }
        { lia. }
        exists w'. split; [exact Hrun|]. world_simpl. lia.
      * destruct e as [m|m]; [contradiction|]. destruct Hres as [Hproc _].
        rewrite Hstatus in Hproc. discriminate.
Qed.

(** The run over pending, processing(10), processing(60), completed. *)
Lemma scenario_run jobId w fuel j0 j1 j2 j3 s1 s2 :
  (api_reply env (api_calls w)).2 = AxResponse j0 ->
  (api_reply env (S (api_calls w))).2 = AxResponse j1 ->
  (api_reply env (S (S (api_calls w)))).2 = AxResponse j2 ->
  (api_reply env (S (S (S (api_calls w))))).2 = AxResponse j3 ->
  job_status j0 = "pending" ->
  job_status j1 = "processing" -> job_progress j1 = Some 10 -> job_currentStep j1 = Some s1 ->
  job_status j2 = "processing" -> job_progress j2 = Some 60 -> job_currentStep j2 = Some s2 ->
  job_status j3 = "completed" ->
  s1 <> EmptyString -> s2 <> EmptyString ->
  Z.of_N (api_reply env (api_calls w)).1 + Z.of_N (timer_lag env (naps w))
  + Z.of_N (api_reply env (S (api_calls w))).1 + Z.of_N (timer_lag env (S (naps w)))
  + Z.of_N (api_reply env (S (S (api_calls w)))).1 + Z.of_N (timer_lag env (S (S (naps w))))
  + 3 * POLL_INTERVAL_MS <= MAX_TIMEOUT_MS ->
  (4 <= fuel)%nat ->
  exists w',
    pollJobStatus REMOTE_URL HMAC_SECRET env fuel jobId w = (Ok j3, w')
    /\ out w' = out w ++ [OutInfo "Job is pending..."; OutProgress s1 10; OutProgress s2 60]
    /\ api_calls w' = (api_calls w + 4)%nat.
Proof.
  intros R0 R1 R2 R3 S0 S1 P1 C1 S2 P2 C2 S3 N1 N2 Htime Hfuel.
  destruct fuel as [|[|[|[|fuel]]]]; try lia. clear Hfuel.
  unfold POLL_INTERVAL_MS, MAX_TIMEOUT_MS in Htime.
  rewrite pollJobStatus_unfold.
  (* first pass: pending *)
  cbn [pollLoop]. unfold bind at 1.
  rewrite pollIteration_request by (unfold MAX_TIMEOUT_MS; lia). cbv zeta. rewrite R0.
  rewrite showProgressIfChanged_ok by (rewrite S0; discriminate).
  rewrite changed_status by (rewrite S0; discriminate).
  rewrite S0. cbn [String.eqb Ascii.eqb Bool.eqb fst snd]. cbv beta iota.
  (* second pass: processing, 10 *)
  cbn [pollLoop]. unfold bind at 1.
  rewrite pollIteration_request
    by (world_simpl; unfold MAX_TIMEOUT_MS, POLL_INTERVAL_MS; lia).
  cbv zeta. world_simpl. rewrite R1.
  rewrite showProgressIfChanged_ok by (intros _; unfold drawable; rewrite P1; cbn; lia).
  rewrite changed_status by (rewrite S1; discriminate).
  rewrite S1. cbn [String.eqb Ascii.eqb Bool.eqb fst snd]. cbv beta iota.
  (* third pass: processing, 60 *)
  cbn [pollLoop]. unfold bind at 1.
  rewrite pollIteration_request
    by (world_simpl; unfold MAX_TIMEOUT_MS, POLL_INTERVAL_MS; lia).
  cbv zeta. world_simpl. rewrite R2.
  rewrite showProgressIfChanged_ok by (intros _; unfold drawable; rewrite P2; cbn; lia).
  rewrite changed_progress by (rewrite P1, P2; discriminate).
  rewrite S2. cbn [String.eqb Ascii.eqb Bool.eqb fst snd]. cbv beta iota.
  (* fourth pass: completed *)
  cbn [pollLoop]. unfold bind at 1.
  rewrite pollIteration_request
    by (world_simpl; unfold MAX_TIMEOUT_MS, POLL_INTERVAL_MS; lia).
  cbv zeta. world_simpl. rewrite R3.
  rewrite showProgressIfChanged_ok by (rewrite S3; discriminate).
  rewrite changed_status by (rewrite S3; discriminate).
  rewrite S3. cbn [String.eqb Ascii.eqb Bool.eqb fst snd]. cbv beta iota.
  eexists. split; [reflexivity|].
  world_simpl. unfold observation.
  rewrite S0, S1, S2, S3, P1, P2, C1, C2.
  destruct s1 as [|a1 s1]; [congruence|]. destruct s2 as [|a2 s2]; [congruence|].
  cbn. rewrite <- !app_assoc. split; [reflexivity|lia].
Qed.

End LoopFacts.

(* ===================================================================== *)
(** * The copy of the response stream                                    *)
(* ===================================================================== *)

Section CountFacts.




End CountFacts.

Section StreamFacts.

Lemma onData_ok totalBytes chunk d w :
  0 <= d -> fits totalBytes (d + Z.of_nat (length chunk)) ->
  onData totalBytes chunk d w
  = (Ok (d + Z.of_nat (length chunk)),
     printed (report totalBytes (d + Z.of_nat (length chunk))) w).
Proof.
  intros Hd Hfit. unfold onData, report, bind.
  destruct totalBytes as [total|]; cbn [Js.truthy_num].
  2:{ unfold ret. rewrite printed_nil. reflexivity. }
  destruct total as [|total|total]; cbn [fits] in Hfit.
  - unfold ret. rewrite printed_nil. reflexivity.
  - change (default 0 (Some (Z.pos total))) with (Z.pos total). rewrite logProgress_ok.
    + reflexivity.
    + assert (0 <= Js.round_div (100 * (d + Z.of_nat (length chunk))) (Z.pos total) <= 100)
        by (apply percentage_range; lia).
      lia.
  - lia.
Qed.

Variable env : Env.

(** The chunks that arrive are appended to the file and counted. *)
Lemma streamEvents_data outputPath totalBytes (rest : list StreamEvent)
    (chunks : list (list Byte.byte)) :
  forall d w content,
    0 <= d ->
    fits totalBytes (d + Z.of_nat (length (concat chunks))) ->
    fs w !! outputPath = Some content ->
    exists w',
      streamEvents (map Data chunks ++ rest) outputPath totalBytes d w
      = streamEvents rest outputPath totalBytes
          (d + Z.of_nat (length (concat chunks))) w'
      /\ fs w' !! outputPath = Some (content ++ concat chunks)
      /\ out w' = out w ++ flat_map (report totalBytes) (counts_from d chunks)
      /\ sent w' = sent w /\ clock w' = clock w.
Proof.
  induction chunks as [|chunk chunks IH]; intros d w content Hd Hfit Hfile.
  - exists w. cbn. rewrite Z.add_0_r, !app_nil_r. auto.
  - cbn [map app concat] in *. rewrite length_app, Nat2Z.inj_add in Hfit.
    cbn [streamEvents]. unfold bind at 1. unfold pipe_write.
    unfold bind at 1. unfold in_handler.
    rewrite onData_ok.
    2: exact Hd.
    2:{ destruct totalBytes; cbn [fits] in *; lia. }
    destruct (IH (d + Z.of_nat (length chunk))
                (printed (report totalBytes (d + Z.of_nat (length chunk)))
                   (set_fs (alter (fun c => c ++ chunk) outputPath (fs w)) w))
                (content ++ chunk)) as (w' & Hrun & Hfs & Hout & Hsent & Hclock).
    + lia.
    + rewrite <- Z.add_assoc. exact Hfit.
    + cbn. rewrite lookup_alter_eq, Hfile. reflexivity.
    + exists w'. rewrite Hrun, Hfs, Hout, Hsent, Hclock.
      rewrite length_app, Nat2Z.inj_add, Z.add_assoc, <- !app_assoc.
      cbn [counts_from flat_map]. cbn. rewrite <- app_assoc. auto.
Qed.

(** Up to the first event: the request is sent and the destination is
    created empty. *)
Lemma downloadFile_streams url outputPath w latency headers events :
  download_reply env
  = (latency, AxResponse {| stream_headers := headers; stream_events := events |}) ->
  open_error env = None ->
  exists w0,
    downloadFile env url outputPath w
    = streamEvents events outputPath (Js.parseInt10 (headers !! "content-length")) 0 w0
    /\ fs w0 !! outputPath = Some []
    /\ out w0 = out w.
Proof.
  intros Hreply Hopen. unfold downloadFile, bind, axios_stream, createWriteStream.
  rewrite Hreply, Hopen. cbn [fst snd stream_headers stream_events].
  eexists. split; [reflexivity|]. cbn. rewrite lookup_insert_eq. auto.
Qed.

End StreamFacts.

(* ===================================================================== *)
(** * The configuration check                                            *)
(* ===================================================================== *)

Section ConfigFacts.

Variable REMOTE_URL : option string.
Variable HMAC_SECRET : option string.
Variable urlParses : string -> bool.
Variable formatBytes : option Z -> string.
Variable toLocaleString : option Z -> string.
Variable toFixed2 : Z -> string.
Variable env : Env.

Lemma validateUrl_outcome url :
  match validateUrl urlParses url with
  | Ok _ | Throw _ => True
  | _ => False
  end.
Proof.
  unfold validateUrl. destruct (negb (Js.truthy_str url)); [exact I|].
  destruct (urlParses _); exact I.
Qed.

(** Without a secret the steps stop, having only printed, before the
    health probe. *)
Lemma steps_without_secret fuel start w :
  Js.truthy_str HMAC_SECRET = false ->
  exists e os,
    steps REMOTE_URL HMAC_SECRET urlParses formatBytes toLocaleString toFixed2 env
      fuel start w
    = (Throw e, printed os w)
    /\ (forall baseUrl, validateUrl urlParses REMOTE_URL = Ok baseUrl ->
          e = secret_missing_error).
Proof.
  intros Hsecret. unfold steps. unfold bind at 1. unfold logStep. cbn [emit].
  unfold bind at 1. unfold lift.
  pose proof (validateUrl_outcome REMOTE_URL) as Hshape.
  destruct (validateUrl urlParses REMOTE_URL) as [baseUrl|e|e|]; try contradiction.
  - unfold bind at 1. unfold logSuccess. cbn [emit]. rewrite Hsecret. cbn [negb].
    eexists _, _. split; [unfold throw, printed; cbn; rewrite <- !app_assoc; reflexivity|].
    reflexivity.
  - exists e. eexists. split; [reflexivity|]. discriminate.
Qed.

Lemma sign_without_secret :
  Js.truthy_str HMAC_SECRET = false ->
  forall timestamp body,
    generateSignature HMAC_SECRET timestamp body = Throw signing_error.
Proof.
  intros Hsecret timestamp body. unfold generateSignature.
  destruct HMAC_SECRET as [[|c r]|].
  - reflexivity.
  - discriminate Hsecret.
  - reflexivity.
Qed.

Lemma send_without_secret method endpoint body w :
  Js.truthy_str HMAC_SECRET = false ->
  Json.truthy body = true ->
  let run := makeAuthenticatedRequest REMOTE_URL HMAC_SECRET env method endpoint body w in
  run.1 = Throw signing_error /\ sent run.2 = sent w.
Proof.
  intros Hsecret Hbody run. subst run.
  unfold makeAuthenticatedRequest, bind, Date_now. rewrite Hbody.
  unfold lift. rewrite sign_without_secret by exact Hsecret. split; reflexivity.
Qed.

(** Without a URL the script prints the usage and exits. *)
Lemma script_without_url fuel w :
  Js.truthy_str REMOTE_URL = false ->
  let run := testVideoGeneration REMOTE_URL HMAC_SECRET urlParses formatBytes
               toLocaleString toFixed2 env fuel w in
  run.1 = Some 1 /\ sent run.2 = sent w.
Proof.
  intros Hurl run. subst run. unfold testVideoGeneration.
  rewrite Hurl. split; reflexivity.
Qed.

(** With a URL and without a secret it stops at the configuration
    check. *)
Lemma script_without_secret fuel w :
  Js.truthy_str HMAC_SECRET = false ->
  Js.truthy_str REMOTE_URL = true ->
  let run := testVideoGeneration REMOTE_URL HMAC_SECRET urlParses formatBytes
               toLocaleString toFixed2 env fuel w in
  run.1 = Some 1
  /\ sent run.2 = sent w
  /\ (forall baseUrl,
        validateUrl urlParses REMOTE_URL = Ok baseUrl ->
        In (OutError (error_message secret_missing_error)) (out run.2)).
Proof.
  intros Hsecret Hurl run. subst run. unfold testVideoGeneration.
  rewrite Hurl. cbn [negb log emit].
  match goal with |- context [steps _ _ _ _ _ _ _ ?f ?s ?x] =>
    destruct (steps_without_secret f s x Hsecret) as (e & os & Hsteps & He) end.
  rewrite Hsteps.
  match goal with |- context [report_failure e ?x] =>
    destruct (report_failure_prints e x) as (os' & Hreport) end.
  cbn [fst snd]. rewrite Hreport. cbn [printed sent out].
  split; [reflexivity|]. split; [reflexivity|].
  intros baseUrl Hvalid. rewrite (He baseUrl Hvalid).
  apply in_or_app. right. right. left. reflexivity.
Qed.

End ConfigFacts.

(* ===================================================================== *)
(** * The poller                                                         *)
(* ===================================================================== *)

Section PollerClaims.

Variable REMOTE_URL : option string.
Variable HMAC_SECRET : option string.
Variable env : Env.

(** What a pass prints: the observation of the response it received, if
    that differs from the last one, and nothing else. *)
Lemma pollIteration_output jobId start ls lp w :
  let pass := pollIteration REMOTE_URL HMAC_SECRET env jobId start ls lp w in
  clock w - start <= MAX_TIMEOUT_MS ->
  forall job,
    (api_reply env (api_calls w)).2 = AxResponse job ->
    percent job ->
    out pass.2 = out w ++ (if changed job ls lp then observation job else []).
Proof.
  intros pass Hintime job Hreply Hpercent. subst pass.
  rewrite pollIteration_request by exact Hintime. cbv zeta. rewrite Hreply.
  rewrite showProgressIfChanged_ok by (intros _; unfold drawable, percent in *; lia).
  destruct (changed job ls lp).
  - destruct (String.eqb (job_status job) "completed"); [reflexivity|].
    destruct (String.eqb (job_status job) "failed"); reflexivity.
  - rewrite app_nil_r.
    destruct (String.eqb (job_status job) "completed"); [reflexivity|].
    destruct (String.eqb (job_status job) "failed"); reflexivity.
Qed.

(** C1 (as amended).  On each pass of the poll loop, for a progress value
    between 0 and 100, the last observed status and progress are replaced
    by those of the response if and only if one of them differs, and what
    is printed then is the observation of the response: the line
    "Job is pending..." for a pending job, the progress bar with the
    current step for a processing job that has a non-empty current step,
    and nothing for any other response (completed and failed ones
    included).  Over the responses pending, processing(10),
    processing(60), completed, the processing ones with a current step,
    the poller prints the pending line, the bar at 10 and the bar at 60,
    in this order, and returns the completed job after four requests. *)
Theorem poll_observations :
  (forall job lastStatus lastProgress w,
      percent job ->
      showProgressIfChanged job lastStatus lastProgress w
      = (Ok (if changed job lastStatus lastProgress
             then (Some (job_status job), job_progress job)
             else (lastStatus, lastProgress)),
         printed (if changed job lastStatus lastProgress then observation job else []) w))
  /\ (forall jobId start lastStatus lastProgress w job,
        clock w - start <= MAX_TIMEOUT_MS ->
        (api_reply env (api_calls w)).2 = AxResponse job ->
        percent job ->
        out (pollIteration REMOTE_URL HMAC_SECRET env jobId start lastStatus lastProgress w).2
        = out w ++ (if changed job lastStatus lastProgress then observation job else []))
  /\ (forall job,
        observation job <> []
        <-> job_status job = "pending"
            \/ (job_status job = "processing"
                /\ Js.truthy_str (job_currentStep job) = true))
  /\ (forall jobId w fuel j0 j1 j2 j3 s1 s2,
        (api_reply env (api_calls w)).2 = AxResponse j0 ->
        (api_reply env (S (api_calls w))).2 = AxResponse j1 ->
        (api_reply env (S (S (api_calls w)))).2 = AxResponse j2 ->
        (api_reply env (S (S (S (api_calls w))))).2 = AxResponse j3 ->
        job_status j0 = "pending" ->
        job_status j1 = "processing" -> job_progress j1 = Some 10 ->
        job_currentStep j1 = Some s1 ->
        job_status j2 = "processing" -> job_progress j2 = Some 60 ->
        job_currentStep j2 = Some s2 ->
        job_status j3 = "completed" ->
        s1 <> EmptyString -> s2 <> EmptyString ->
        Z.of_N (api_reply env (api_calls w)).1 + Z.of_N (timer_lag env (naps w))
        + Z.of_N (api_reply env (S (api_calls w))).1
        + Z.of_N (timer_lag env (S (naps w)))
        + Z.of_N (api_reply env (S (S (api_calls w)))).1
        + Z.of_N (timer_lag env (S (S (naps w))))
        + 3 * POLL_INTERVAL_MS <= MAX_TIMEOUT_MS ->
        (4 <= fuel)%nat ->
        exists w',
          pollJobStatus REMOTE_URL HMAC_SECRET env fuel jobId w = (Ok j3, w')
          /\ out w' = out w ++ [OutInfo "Job is pending..."; OutProgress s1 10;
                                OutProgress s2 60]
          /\ api_calls w' = (api_calls w + 4)%nat).
Proof.
  split; [|split; [|split]].
  - intros job ls lp w Hpercent.
    rewrite showProgressIfChanged_ok by (intros _; unfold drawable, percent in *; lia).
    destruct (changed job ls lp); [reflexivity|]. rewrite printed_nil. reflexivity.
  - intros jobId start ls lp w job Hintime Hreply Hpercent.
    exact (pollIteration_output jobId start ls lp w Hintime job Hreply Hpercent).
  - exact observation_shown.
  - intros. eapply scenario_run; eassumption.
Qed.

(** C4.  In every poll run in which a status response reports [failed]
    with the error "encode crashed", the poller throws the error
    "Job failed: encode crashed", and that response is the last one it
    asked for: no status request follows it. *)
Theorem poll_failed_job fuel jobId w n job :
  (api_reply env n).2 = AxResponse job ->
  job_status job = "failed" ->
  job_error job = Some "encode crashed" ->
  let run := pollJobStatus REMOTE_URL HMAC_SECRET env fuel jobId w in
  (api_calls w <= n < api_calls run.2)%nat ->
  run.1 = Throw (Error "Job failed: encode crashed")
  /\ api_calls run.2 = S n
  /\ length (sent run.2) = (length (sent w) + (S n - api_calls w))%nat.
Proof.
  intros Hreply Hstatus Herror run Hreceived.
  destruct (pollLoop_run REMOTE_URL HMAC_SECRET env jobId (clock w) fuel
              None (Some 0) w run.1 run.2) as (_ & _ & (requests & Hs & Hl & _) & _ & Hf).
  { subst run. rewrite pollJobStatus_unfold. apply surjective_pairing. }
  destruct (Hf n job Hreceived Hreply Hstatus) as [Hr Hn].
  split.
  - rewrite Hr. unfold failure_of. rewrite Herror. reflexivity.
  - split; [exact Hn|]. rewrite Hs, length_app, Hl, Hn. reflexivity.
Qed.

(** C5.  Against a server whose status responses are all [pending], the
    poller fails with the timeout error (given fuel for 62 passes, after
    at most 61 requests).  It fails with that error only when more than
    [MAX_TIMEOUT_MS] have passed since the poll started; every status
    request is sent within the deadline; and a pass that starts past the
    deadline throws at once, before any request: the check comes first
    in every pass. *)
Theorem poll_pending_times_out jobId w :
  always_pending env ->
  (forall fuel,
      (62 <= fuel)%nat ->
      exists w',
        pollJobStatus REMOTE_URL HMAC_SECRET env fuel jobId w = (Throw timeout_error, w')
        /\ (api_calls w' <= api_calls w + 61)%nat)
  /\ (forall fuel,
        let run := pollJobStatus REMOTE_URL HMAC_SECRET env fuel jobId w in
        (run.1 = Throw timeout_error -> clock run.2 - clock w > MAX_TIMEOUT_MS)
        /\ exists requests,
             sent run.2 = sent w ++ requests
             /\ Forall (fun request => request.1 - clock w <= MAX_TIMEOUT_MS) requests)
  /\ (forall lastStatus lastProgress x,
        clock x - clock w > MAX_TIMEOUT_MS ->
        pollIteration REMOTE_URL HMAC_SECRET env jobId (clock w) lastStatus lastProgress x
        = (Throw timeout_error, x)).
Proof.
  intros Hpending. split; [|split].
  - intros fuel Hfuel. rewrite pollJobStatus_unfold.
    apply (pollLoop_pending_times_out REMOTE_URL HMAC_SECRET env jobId (clock w)
             Hpending 61 fuel None (Some 0) w); [|lia].
    unfold MAX_TIMEOUT_MS, POLL_INTERVAL_MS. lia.
  - intros fuel run.
    destruct (pollLoop_run REMOTE_URL HMAC_SECRET env jobId (clock w) fuel
                None (Some 0) w run.1 run.2)
      as (_ & _ & (requests & Hs & _ & Hall) & Ht & _).
    { subst run. rewrite pollJobStatus_unfold. apply surjective_pairing. }
    split; [exact Ht|]. exists requests. split; assumption.
  - intros ls lp x Hlate. apply pollIteration_timeout. exact Hlate.
Qed.

End PollerClaims.

Lemma poll_observations_witness :
  exists w',
    pollJobStatus None None Sample.server_completing 4 (Some "job-1") Sample.world0
    = (Ok Sample.job_completed, w')
    /\ out w' = out Sample.world0
                ++ [OutInfo "Job is pending..."; OutProgress "Encoding" 10;
                    OutProgress "Encoding" 60]
    /\ api_calls w' = (api_calls Sample.world0 + 4)%nat.
Proof.
  apply (proj2 (proj2 (proj2 (poll_observations None None Sample.server_completing)))
           (Some "job-1") Sample.world0 4%nat
           Sample.job_pending (Sample.job_processing 10) (Sample.job_processing 60)
           Sample.job_completed "Encoding" "Encoding");
    try reflexivity; try discriminate; vm_compute; try lia; discriminate.
Defined.

(** C1 (as stated) fails at a completed response: status and progress
    differ from the last observed ones, and nothing is printed. *)
Lemma poll_completed_unobserved : ~ printed_iff_changed.
Proof.
  intros H.
  destruct (H Sample.job_completed (Some "processing") (Some 60) Sample.world0) as [_ Hprint].
  apply Hprint; reflexivity.
Qed.

Lemma poll_failed_job_witness :
  let run := pollJobStatus None None Sample.server_failing 10 (Some "job-1") Sample.world0 in
  run.1 = Throw (Error "Job failed: encode crashed")
  /\ api_calls run.2 = 3%nat
  /\ length (sent run.2) = (length (sent Sample.world0) + (3 - api_calls Sample.world0))%nat.
Proof.
  apply (poll_failed_job None None Sample.server_failing 10 (Some "job-1") Sample.world0
           2 Sample.job_failed); try reflexivity.
  vm_compute. lia.
Defined.

Lemma poll_pending_times_out_witness :
  always_pending Sample.server_stuck
  /\ exists w',
       pollJobStatus None None Sample.server_stuck 62 (Some "job-1") Sample.world0
       = (Throw timeout_error, w')
       /\ (api_calls w' <= api_calls Sample.world0 + 61)%nat.
Proof.
  assert (H : always_pending Sample.server_stuck).
  { intros n. exists Sample.job_pending. split; [|reflexivity].
    unfold Sample.server_stuck, Sample.server. cbn. destruct n as [|[|n]]; reflexivity. }
  split; [exact H|].
  apply (proj1 (poll_pending_times_out None None Sample.server_stuck (Some "job-1")
                  Sample.world0 H)).
  lia.
Defined.

(* ===================================================================== *)
(** * Signing and the authenticated transport                            *)
(* ===================================================================== *)


(** C8 (as stated) fails: the tag has 256 bits, so among the
    [2 ^ 256 + 1] bodies [{"tweetBody": "0"}], [{"tweetBody": "1"}], ...
    two have the same signature under the same timestamp. *)
Lemma signature_collision : ~ binding_for_all "shared-secret".
Proof.
  intros [_ Hbody].
  apply (pigeonhole (2 ^ 256)) with
    (f := fun i => hmac_sha256_tag "shared-secret" (signed_message 1700000000 (numbered_body i))).
  - apply Z.pow_nonneg. lia.
  - intros i _. apply hmac_sha256_tag_range.
  - intros i j _ _ E. destruct (Z.eq_dec i j) as [|Hne]; [assumption|exfalso].
    apply (Hbody 1700000000 (numbered_body i) (numbered_body j)).
    + intros Eb. apply Hne. injection Eb as Eb. apply String_of_number_inj. exact Eb.
    + change "shared-secret" with (String "s" "hared-secret").
      rewrite !generateSignature_some. unfold hmac_sha256_hex.
      change (String "s" "hared-secret") with "shared-secret". rewrite E. reflexivity.
Qed.

(** C8 (as amended).  With a non-empty secret, the timestamp and the
    serialized body are bound into the signed message: two signed messages
    are equal only if the timestamps are equal and the bodies have the same
    JSON serialization; and two signatures are equal exactly when the
    HMAC-SHA256 tags of the two signed messages are. *)
Theorem signature_binds_message (c : ascii) (r : string) (T1 T2 : Z) (B1 B2 : json) :
  let secret := String c r in
  (signed_message T1 B1 = signed_message T2 B2 <-> T1 = T2 /\ stringify B1 = stringify B2)
  /\ (generateSignature (Some secret) T1 B1 = generateSignature (Some secret) T2 B2
      <-> hmac_sha256_tag secret (signed_message T1 B1)
          = hmac_sha256_tag secret (signed_message T2 B2)).
Proof.
  intros secret. split.
  - split.
    + intros E. unfold signed_message in E.
      apply split_at_colon in E; try apply String_of_number_no_colon.
      destruct E as [Et Eb]. split; [apply String_of_number_inj; exact Et|exact Eb].
    + intros [-> Eb]. unfold signed_message. rewrite Eb. reflexivity.
  - subst secret. rewrite !generateSignature_some. unfold hmac_sha256_hex. split.
    + intros E. apply Ok_inj in E.
      apply hex_of_number_inj; [apply hmac_sha256_tag_range..|exact E].
    + intros ->. reflexivity.
Qed.

Section TransportClaims.

Variable REMOTE_URL : option string.
Variable HMAC_SECRET : option string.
Variable env : Env.

(** C7.  A call of [makeAuthenticatedRequest], with an object as body or
    without body, sends at most one request.  The request carries the
    [X-Timestamp] header of the timestamp taken at the call, carries an
    [X-Signature] header if and only if a body was given, carries that
    body as payload, and its signature is the one of that timestamp and
    that body.  No request is sent only when a body was given and the
    secret is missing, in which case the call throws. *)
Theorem signature_iff_body method endpoint (props : option (list (string * json))) w :
  let body := JObj <$> props in
  let run := makeAuthenticatedRequest REMOTE_URL HMAC_SECRET env method endpoint body w in
  exists requests,
    sent run.2 = sent w ++ requests
    /\ (length requests <= 1)%nat
    /\ Forall (consistently_signed HMAC_SECRET (clock w) body) requests
    /\ (requests = [] ->
        is_Some props /\ Js.truthy_str HMAC_SECRET = false
        /\ run.1 = Throw signing_error).
Proof.
  intros body run. subst body run.
  unfold makeAuthenticatedRequest, bind, Date_now, axios_api.
  destruct props as [props|]; cbn [fmap option_fmap option_map Json.truthy].
  - unfold lift. cbn [default from_option id].
    destruct HMAC_SECRET as [[|c r]|] eqn:Hsecret; cbn [generateSignature].
    + exists []. rewrite app_nil_r. cbn. repeat split; auto; try constructor; eauto.
    + unfold ret at 1. cbv beta iota.
      exists [(clock w,
               with_signed_body
                 (base_config method (Js.template_str REMOTE_URL +:+ endpoint)
                    (clock w / 1000))
                 (Some (JObj props))
                 (Crypto.digest_hex
                    (Crypto.update (Crypto.createHmac_sha256 (String c r))
                       (Js.String_of_number (clock w / 1000) +:+ ":"
                        +:+ stringify (JObj props)))))].
      split.
      { destruct (api_reply env (api_calls w)).2; reflexivity. }
      split; [cbn; lia|].
      split; [|discriminate].
      constructor; [|constructor].
      unfold consistently_signed.
      cbn [fst snd with_signed_body base_config cfg_headers cfg_data].
      split; [reflexivity|].
      split; [rewrite lookup_insert_ne by discriminate; apply lookup_insert_eq|].
      split; [rewrite lookup_insert_eq; split; eauto|].
      split; [reflexivity|].
      intros signature. rewrite lookup_insert_eq. intros [= <-].
      eexists. split; reflexivity.
    + exists []. rewrite app_nil_r. cbn. repeat split; auto; try constructor; eauto.
  - unfold ret at 1. cbv beta iota.
    exists [(clock w,
             base_config method (Js.template_str REMOTE_URL +:+ endpoint) (clock w / 1000))].
    split.
    { destruct (api_reply env (api_calls w)).2; reflexivity. }
    split; [cbn; lia|].
    split; [|discriminate].
    constructor; [|constructor].
    unfold consistently_signed. cbn [fst snd base_config cfg_headers cfg_data].
    split; [reflexivity|].
    split; [apply lookup_insert_eq|].
    assert (Hnone : (<["X-Timestamp" := Js.String_of_number (clock w / 1000)]>
                       (<["Content-Type" := "application/json"]>
                          (∅ : gmap string string)))
                    !! "X-Signature" = None).
    { rewrite !lookup_insert_ne by discriminate. apply lookup_empty. }
    rewrite Hnone.
    split; [split; intros [x Hx]; discriminate|].
    split; [reflexivity|discriminate].
Qed.


Variable urlParses : string -> bool.
Variable formatBytes : option Z -> string.
Variable toLocaleString : option Z -> string.
Variable toFixed2 : Z -> string.

(** C6.  When the secret is absent or empty, the script exits with code
    1 without having sent any request: it stops at the configuration
    check, before the health probe (with the missing-secret error when
    the URL is valid).  [generateSignature] itself throws, and a call of
    [makeAuthenticatedRequest] with a body throws that error before any
    request is sent. *)
Theorem missing_secret_fails_before_network :
  Js.truthy_str HMAC_SECRET = false ->
  (forall fuel w,
      let run := testVideoGeneration REMOTE_URL HMAC_SECRET urlParses formatBytes
                   toLocaleString toFixed2 env fuel w in
      run.1 = Some 1
      /\ sent run.2 = sent w
      /\ (forall baseUrl,
            Js.truthy_str REMOTE_URL = true ->
            validateUrl urlParses REMOTE_URL = Ok baseUrl ->
            In (OutError (error_message secret_missing_error)) (out run.2)))
  /\ (forall timestamp body,
        generateSignature HMAC_SECRET timestamp body = Throw signing_error)
  /\ (forall method endpoint body w,
        Json.truthy body = true ->
        let run := makeAuthenticatedRequest REMOTE_URL HMAC_SECRET env method endpoint
                     body w in
        run.1 = Throw signing_error /\ sent run.2 = sent w).
Proof.
  intros Hsecret. split; [|split].
  - intros fuel w run.
    destruct (Js.truthy_str REMOTE_URL) eqn:Hurl.
    + destruct (script_without_secret REMOTE_URL HMAC_SECRET urlParses formatBytes
                  toLocaleString toFixed2 env fuel w Hsecret Hurl) as (H1 & H2 & H3).
      split; [exact H1|]. split; [exact H2|]. intros baseUrl _. apply H3.
    + destruct (script_without_url REMOTE_URL HMAC_SECRET urlParses formatBytes
                  toLocaleString toFixed2 env fuel w Hurl) as (H1 & H2).
      split; [exact H1|]. split; [exact H2|]. intros baseUrl H. discriminate H.
  - exact (sign_without_secret HMAC_SECRET Hsecret).
  - intros method endpoint body w Hbody.
    exact (send_without_secret REMOTE_URL HMAC_SECRET env method endpoint body w
             Hsecret Hbody).
Qed.

End TransportClaims.

Lemma missing_secret_fails_before_network_witness :
  Js.truthy_str None = false
  /\ let run := testVideoGeneration (Some "my-api.railway.app") None (fun _ => true)
                  (fun _ => "4 Bytes") (fun _ => "1/1/2024") (fun _ => "15.49")
                  Sample.server_completing 10 Sample.world0 in
     run.1 = Some 1 /\ sent run.2 = sent Sample.world0.
Proof.
  split; [reflexivity|].
  pose proof (proj1 (missing_secret_fails_before_network (Some "my-api.railway.app") None
                       Sample.server_completing (fun _ => true)
                       (fun _ => "4 Bytes") (fun _ => "1/1/2024") (fun _ => "15.49")
                       eq_refl) 10%nat Sample.world0) as H.
  cbv zeta in *. destruct H as (H1 & H2 & _). split; [exact H1|exact H2].
Defined.

(* ===================================================================== *)
(** * The URL check                                                      *)
(* ===================================================================== *)

(** C10 (as stated) fails at the input "https://": it starts with
    "https://", yet without its trailing slash it no longer does, and the
    scheme is added a second time. *)
Lemma validateUrl_bare_scheme : ~ validateUrl_by_input (String.eqb "https://https:/").
Proof.
  intros H. specialize (H "h"%char "ttps://"). vm_compute in H.
  destruct H as [H _]. discriminate H.
Qed.

(** C10 (as amended).  [validateUrl] throws "URL is required" for an
    absent or empty input.  For a non-empty input it removes one trailing
    slash, prepends "https://" when the string so obtained starts with
    neither "http://" nor "https://", and returns the result if the URL
    parser accepts it and throws otherwise.  For every input other than
    "http://" and "https://" it makes no difference whether the scheme is
    looked for before or after the slash is removed; and an input that
    starts with a scheme, has no trailing slash and parses is returned
    unchanged. *)
Theorem validateUrl_normalizes (urlParses : string -> bool) :
  validateUrl urlParses None = Throw (Error "URL is required")
  /\ validateUrl urlParses (Some EmptyString) = Throw (Error "URL is required")
  /\ (forall c r,
        let input := String c r in
        validateUrl urlParses (Some input)
        = if urlParses (normal_form input) then Ok (normal_form input)
          else Throw (Error ("Invalid URL format: " +:+ normal_form input)))
  /\ (forall s, Js.replace_trailing_slash (s +:+ "/") = s)
  /\ (forall s, ends_with_slash s = false -> Js.replace_trailing_slash s = s)
  /\ (forall input,
        input <> "http://" -> input <> "https://" ->
        normal_form input = normal_form_by_input input)
  /\ (forall input,
        Js.startsWith "http://" input || Js.startsWith "https://" input = true ->
        ends_with_slash input = false ->
        urlParses input = true ->
        validateUrl urlParses (Some input) = Ok input).
Proof.
  split; [reflexivity|]. split; [reflexivity|]. split; [reflexivity|].
  split; [exact replace_trailing_slash_slash|].
  split; [exact replace_trailing_slash_none|].
  split.
  - intros input H1 H2. unfold normal_form, normal_form_by_input.
    rewrite !startsWith_after_strip by assumption. reflexivity.
  - intros input Hscheme Hslash Hparses.
    assert (Hform : normal_form input = input).
    { unfold normal_form. rewrite (replace_trailing_slash_none _ Hslash).
      destruct (Js.startsWith "http://" input), (Js.startsWith "https://" input);
        try reflexivity. discriminate Hscheme. }
    destruct input as [|c r]; [discriminate Hscheme|].
    change (validateUrl urlParses (Some (String c r)))
      with (if urlParses (normal_form (String c r)) then Ok (normal_form (String c r))
            else Throw (Error ("Invalid URL format: " +:+ normal_form (String c r)))).
    rewrite Hform, Hparses. reflexivity.
Qed.

Lemma validateUrl_normalizes_witness :
  validateUrl (fun _ => true) (Some "http://localhost:3000") = Ok "http://localhost:3000".
Proof.
  apply (proj2 (proj2 (proj2 (proj2 (proj2 (proj2 (validateUrl_normalizes (fun _ => true))))))));
    reflexivity.
Defined.

(* ===================================================================== *)
(** * The streaming fetcher                                              *)
(* ===================================================================== *)

Section FetcherClaims.

Variable env : Env.



End FetcherClaims.




(* ===================================================================== *)
(** * More on the console and the poll loop                              *)
(* ===================================================================== *)

Section BarFacts.

Lemma bar_underflow (p : Z) : p < -1 -> Js.round_div (30 * p) 100 < 0.
Proof. intros H. unfold Js.round_div. apply Z.div_lt_upper_bound; lia. Qed.

Lemma bar_overflow (p : Z) : 101 < p -> 30 < Js.round_div (30 * p) 100.
Proof.
  intros H. unfold Js.round_div.
  apply Z.lt_le_trans with 31; [lia|]. apply Z.div_le_lower_bound; lia.
Qed.

Lemma logProgress_underflow message p w :
  p < -1 ->
  logProgress message p w
  = (Throw (RangeError ("Invalid count value: "
                        +:+ Js.String_of_number (Js.round_div (30 * p) 100))), w).
Proof.
  intros H. pose proof (bar_underflow p H) as Hb.
  unfold logProgress, repeat_check, bind.
  destruct (Z.ltb_spec (Js.round_div (30 * p) 100) 0); [reflexivity|lia].
Qed.

Lemma logProgress_overflow message p w :
  101 < p ->
  logProgress message p w
  = (Throw (RangeError ("Invalid count value: "
                        +:+ Js.String_of_number (30 - Js.round_div (30 * p) 100))), w).
Proof.
  intros H. pose proof (bar_overflow p H) as Hb.
  unfold logProgress, repeat_check, bind.
  destruct (Z.ltb_spec (Js.round_div (30 * p) 100) 0); [lia|].
  unfold ret at 1. cbv beta iota.
  destruct (Z.ltb_spec (30 - Js.round_div (30 * p) 100) 0); [reflexivity|lia].
Qed.

End BarFacts.

(** X1.  [logProgress] draws the bar, and a line end from 100 on, for
    the percentages from -1 to 101; for any other percentage one of the
    two [repeat] calls gets a negative count and throws a [RangeError],
    and nothing is printed. *)
Theorem logProgress_draws_or_throws (message : string) (p : Z) (w : World) :
  (-1 <= p <= 101 ->
     logProgress message p w
     = (Ok tt, printed (OutProgress message p :: (if p >=? 100 then [OutNewline] else [])) w))
  /\ (p < -1 \/ 101 < p ->
        exists m, logProgress message p w = (Throw (RangeError m), w)).
Proof.
  split.
  - apply logProgress_ok.
  - intros [H|H]; eexists; [apply logProgress_underflow|apply logProgress_overflow]; exact H.
Qed.

Lemma logProgress_draws_or_throws_witness :
  logProgress "Encoding" 100 Sample.world0
  = (Ok tt, printed [OutProgress "Encoding" 100; OutNewline] Sample.world0)
  /\ exists m, logProgress "Encoding" 102 Sample.world0 = (Throw (RangeError m), Sample.world0).
Proof.
  split.
  - apply (proj1 (logProgress_draws_or_throws "Encoding" 100 Sample.world0)). lia.
  - apply (proj2 (logProgress_draws_or_throws "Encoding" 102 Sample.world0)). right. lia.
Defined.


Section PollCases.

Variable REMOTE_URL : option string.
Variable HMAC_SECRET : option string.
Variable env : Env.
Variable jobId : option string.
Variable start : Z.

(** Case analysis on the runs of the loop: a property of runs that holds
    for each way a pass can end, and is passed on from the rest of a run to
    the run, holds of every run. *)
Lemma pollLoop_cases (P : World -> Outcome ApiData -> World -> Prop) :
  (forall w, P w Pending w) ->
  (forall w, clock w - start > MAX_TIMEOUT_MS -> P w (Throw timeout_error) w) ->
  (forall w e,
      clock w - start <= MAX_TIMEOUT_MS ->
      (api_reply env (api_calls w)).2 = AxError e ->
      P w (Throw (Error (api_error_message e)))
        (after_api_call env (status_request REMOTE_URL jobId w) w)) ->
  (forall w job m,
      clock w - start <= MAX_TIMEOUT_MS ->
      (api_reply env (api_calls w)).2 = AxResponse job ->
      job_status job = "processing" ->
      P w (Throw (RangeError m)) (after_api_call env (status_request REMOTE_URL jobId w) w)) ->
  (forall w job os,
      clock w - start <= MAX_TIMEOUT_MS ->
      (api_reply env (api_calls w)).2 = AxResponse job ->
      job_status job = "completed" ->
      P w (Ok job) (printed os (after_api_call env (status_request REMOTE_URL jobId w) w))) ->
  (forall w job os,
      clock w - start <= MAX_TIMEOUT_MS ->
      (api_reply env (api_calls w)).2 = AxResponse job ->
      job_status job = "failed" ->
      P w (Throw (failure_of job))
        (printed os (after_api_call env (status_request REMOTE_URL jobId w) w))) ->
  (forall w job os r w',
      clock w - start <= MAX_TIMEOUT_MS ->
      (api_reply env (api_calls w)).2 = AxResponse job ->
      job_status job <> "completed" ->
      job_status job <> "failed" ->
      P (after_nap env
           (printed os (after_api_call env (status_request REMOTE_URL jobId w) w))) r w' ->
      P w r w') ->
  forall fuel ls lp w r w',
    pollLoop REMOTE_URL HMAC_SECRET env fuel jobId start ls lp w = (r, w') ->
    P w r w'.
Proof.
  intros Hpending Htimeout Herror Hrange Hdone Hfailed Hnext.
  induction fuel as [|fuel IH]; intros ls lp w r w' Hrun.
  - cbn in Hrun. injection Hrun as <- <-. apply Hpending.
  - cbn [pollLoop] in Hrun. unfold bind at 1 in Hrun.
    destruct (Z_gt_le_dec (clock w - start) MAX_TIMEOUT_MS) as [Hlate|Hintime].
    + rewrite pollIteration_timeout in Hrun by exact Hlate.
      injection Hrun as <- <-. apply Htimeout. exact Hlate.
    + rewrite pollIteration_request in Hrun by exact Hintime. cbv zeta in Hrun.
      destruct (api_reply env (api_calls w)).2 as [job|e] eqn:Hreply.
      * destruct (showProgressIfChanged_frame job ls lp
                    (after_api_call env (status_request REMOTE_URL jobId w) w))
          as (os & Hw2 & Hres).
        destruct (showProgressIfChanged job ls lp _) as [res w2].
        cbn [fst snd] in Hw2, Hres. subst w2.
        destruct res as [last|e| |]; [| |contradiction|contradiction].
        -- destruct (String.eqb_spec (job_status job) "completed") as [Hc|Hc].
           { injection Hrun as <- <-. apply Hdone; assumption. }
           destruct (String.eqb_spec (job_status job) "failed") as [Hf|Hf].
           { injection Hrun as <- <-. apply Hfailed; assumption. }
           apply IH in Hrun. eapply Hnext; eassumption.
        -- injection Hrun as <- <-.
           destruct e as [m|m]; [contradiction|]. destruct Hres as [Hproc ->].
           rewrite printed_nil. eapply Hrange; eassumption.
      * injection Hrun as <- <-. apply Herror; assumption.
Qed.

End PollCases.
Section PollExtras.

Variable REMOTE_URL : option string.
Variable HMAC_SECRET : option string.
Variable env : Env.

Lemma run_pair fuel jobId w :
  pollLoop REMOTE_URL HMAC_SECRET env fuel jobId (clock w) None (Some 0) w
  = ((pollJobStatus REMOTE_URL HMAC_SECRET env fuel jobId w).1,
     (pollJobStatus REMOTE_URL HMAC_SECRET env fuel jobId w).2).
Proof. rewrite pollJobStatus_unfold. apply surjective_pairing. Qed.

(** X2.  A status request that fails is not retried: when one of the
    requests of a poll run is answered with an error, the run ends there
    with the error of [makeAuthenticatedRequest], and that request is the
    last one made. *)
Theorem poll_request_error_ends_run fuel jobId w n e :
  (api_reply env n).2 = AxError e ->
  let run := pollJobStatus REMOTE_URL HMAC_SECRET env fuel jobId w in
  (api_calls w <= n < api_calls run.2)%nat ->
  run.1 = Throw (Error (api_error_message e)) /\ api_calls run.2 = S n.
Proof.
  intros Hreply run. subst run. revert n e Hreply.
  apply (pollLoop_cases REMOTE_URL HMAC_SECRET env jobId (clock w)
           (fun w r w' => forall n e,
                (api_reply env n).2 = AxError e ->
                (api_calls w <= n < api_calls w')%nat ->
                r = Throw (Error (api_error_message e)) /\ api_calls w' = S n))
    with (fuel := fuel) (ls := None) (lp := Some 0); [..|apply run_pair].
  - intros x n e _ Hn. lia.
  - intros x _ n e _ Hn. lia.
  - intros x e _ Hx n e' Hn Hrange. world_simpl.
    assert (n = api_calls x) by lia. subst n. rewrite Hx in Hn. injection Hn as <-. auto.
  - intros x job m _ Hx _ n e Hn Hrange. world_simpl.
    assert (n = api_calls x) by lia. subst n. rewrite Hx in Hn. discriminate.
  - intros x job os _ Hx _ n e Hn Hrange. world_simpl.
    assert (n = api_calls x) by lia. subst n. rewrite Hx in Hn. discriminate.
  - intros x job os _ Hx _ n e Hn Hrange. world_simpl.
    assert (n = api_calls x) by lia. subst n. rewrite Hx in Hn. discriminate.
  - intros x job os r x' _ Hx _ _ IH n e Hn Hrange. world_simpl.
    destruct (Nat.eq_dec n (api_calls x)) as [->|Hne].
    + rewrite Hx in Hn. discriminate.
    + apply IH; [exact Hn|lia].
Qed.

(** X3.  When [pollJobStatus] returns a job, the job has the status
    "completed", the run has made at least one request, and the job is the
    response to the last request made. *)
Theorem poll_returns_latest_completed fuel jobId w job :
  let run := pollJobStatus REMOTE_URL HMAC_SECRET env fuel jobId w in
  run.1 = Ok job ->
  job_status job = "completed"
  /\ (api_calls w < api_calls run.2)%nat
  /\ (api_reply env (pred (api_calls run.2))).2 = AxResponse job.
Proof.
  intros run. subst run. revert job.
  apply (pollLoop_cases REMOTE_URL HMAC_SECRET env jobId (clock w)
           (fun w r w' => forall job,
                r = Ok job ->
                job_status job = "completed"
                /\ (api_calls w < api_calls w')%nat
                /\ (api_reply env (pred (api_calls w'))).2 = AxResponse job))
    with (fuel := fuel) (ls := None) (lp := Some 0); [..|apply run_pair];
    try (intros; discriminate).
  - intros x job os _ Hx Hstatus j [= <-]. world_simpl. auto.
  - intros x job os r x' _ Hx _ _ IH j Hr. world_simpl.
    destruct (IH j Hr) as (H1 & H2 & H3). split; [exact H1|]. split; [lia|exact H3].
Qed.

End PollExtras.

Section PacingFacts.

Lemma paced_from_earlier (times : list Z) (t t' : Z) :
  t <= t' -> paced_from t' times -> paced_from t times.
Proof. destruct times as [|t1 rest]; cbn; [auto|]. intros H [H1 H2]. split; [lia|exact H2]. Qed.

(** Requests one interval apart that all fall between [t] and [limit]
    are at most one more than the intervals that fit in between. *)
Lemma paced_from_count (times : list Z) :
  forall t limit,
    paced_from t times ->
    Forall (fun x => x <= limit) times ->
    times = [] \/ Z.of_nat (length times) * POLL_INTERVAL_MS <= limit - t + POLL_INTERVAL_MS.
Proof.
  induction times as [|t1 rest IH]; intros t limit Hp Hall; [left; reflexivity|right].
  cbn [paced_from] in Hp. destruct Hp as [H1 H2].
  apply Forall_cons in Hall. destruct Hall as [Hl Hall].
  destruct (IH (t1 + POLL_INTERVAL_MS) limit H2 Hall) as [->|Hrest].
  - cbn [length]. unfold POLL_INTERVAL_MS. lia.
  - cbn [length]. rewrite Nat2Z.inj_succ. unfold POLL_INTERVAL_MS in *. lia.
Qed.

End PacingFacts.

Section PollTiming.

Variable REMOTE_URL : option string.
Variable HMAC_SECRET : option string.
Variable env : Env.

Lemma pollLoop_paced jobId start fuel ls lp w r w' :
  pollLoop REMOTE_URL HMAC_SECRET env fuel jobId start ls lp w = (r, w') ->
  exists requests,
    sent w' = sent w ++ requests /\ paced_from (clock w) (map fst requests).
Proof.
  apply (pollLoop_cases REMOTE_URL HMAC_SECRET env jobId start
           (fun w r w' => exists requests,
                sent w' = sent w ++ requests /\ paced_from (clock w) (map fst requests))).
  - intros x. exists []. rewrite app_nil_r. split; [reflexivity|exact I].
  - intros x _. exists []. rewrite app_nil_r. split; [reflexivity|exact I].
  - intros x e _ _. eexists. world_simpl. split; [reflexivity|]. cbn. split; [lia|exact I].
  - intros x job m _ _ _. eexists. world_simpl. split; [reflexivity|]. cbn. split; [lia|exact I].
  - intros x job os _ _ _. eexists. world_simpl. split; [reflexivity|]. cbn. split; [lia|exact I].
  - intros x job os _ _ _. eexists. world_simpl. split; [reflexivity|]. cbn. split; [lia|exact I].
  - intros x job os r0 x' _ _ _ _ (requests & Hs & Hp). world_simpl.
    exists ((clock x, status_request REMOTE_URL jobId x) :: requests).
    rewrite Hs, <- app_assoc. split; [reflexivity|].
    cbn [map fst paced_from]. split; [lia|].
    eapply paced_from_earlier; [|exact Hp]. unfold POLL_INTERVAL_MS. lia.
Qed.

(** X4.  The requests of a poll run are paced: the first is sent no
    earlier than the start, each further one at least [POLL_INTERVAL_MS]
    after the one before; and, whatever the server answers and however
    long the run is followed, there are at most 61 of them. *)
Theorem poll_requests_paced fuel jobId w :
  let run := pollJobStatus REMOTE_URL HMAC_SECRET env fuel jobId w in
  exists requests,
    sent run.2 = sent w ++ requests
    /\ paced_from (clock w) (map fst requests)
    /\ (length requests <= 61)%nat.
Proof.
  intros run.
  destruct (pollLoop_paced jobId (clock w) fuel None (Some 0) w run.1 run.2)
    as (requests & Hs & Hp); [apply run_pair|].
  destruct (pollLoop_run REMOTE_URL HMAC_SECRET env jobId (clock w) fuel None (Some 0)
              w run.1 run.2 (run_pair REMOTE_URL HMAC_SECRET env fuel jobId w))
    as (_ & _ & (requests' & Hs' & _ & Hall) & _).
  rewrite Hs in Hs'. apply app_inv_head in Hs'. subst requests'.
  exists requests. split; [exact Hs|]. split; [exact Hp|].
  destruct (paced_from_count (map fst requests) (clock w) (clock w + MAX_TIMEOUT_MS) Hp)
    as [Hnil|Hcount].
  - apply Forall_map. eapply Forall_impl; [exact Hall|]. cbn. intros; lia.
  - apply (f_equal (@length Z)) in Hnil. rewrite length_map in Hnil. cbn in Hnil. lia.
  - rewrite length_map in Hcount. unfold POLL_INTERVAL_MS, MAX_TIMEOUT_MS in Hcount. lia.
Qed.


Lemma pollLoop_timeout_bound jobId start L G fuel ls lp w r w' :
  (forall n, Z.of_N (api_reply env n).1 <= L) ->
  (forall n, Z.of_N (timer_lag env n) <= G) ->
  pollLoop REMOTE_URL HMAC_SECRET env fuel jobId start ls lp w = (r, w') ->
  clock w - start <= lateness_bound L G ->
  r = Throw timeout_error ->
  clock w' - start <= lateness_bound L G.
Proof.
  intros HL HG.
  apply (pollLoop_cases REMOTE_URL HMAC_SECRET env jobId start
           (fun w r w' => clock w - start <= lateness_bound L G ->
                          r = Throw timeout_error ->
                          clock w' - start <= lateness_bound L G)).
  - intros x _ H. discriminate H.
  - intros x _ H _. exact H.
  - intros x e _ _ _ H. exfalso. apply (api_error_not_timeout e). congruence.
  - intros x job m _ _ _ _ H. discriminate H.
  - intros x job os _ _ _ _ H. discriminate H.
  - intros x job os _ _ _ _ H. exfalso. apply (failure_not_timeout job). congruence.
  - intros x job os r0 x' Hintime _ _ _ IH _ Hr. apply IH; [|exact Hr].
    world_simpl. unfold lateness_bound.
    specialize (HL (api_calls x)). specialize (HG (naps x)). lia.
Qed.

(** X5.  When every request takes at most [L] ms and every nap
    oversleeps by at most [G] ms, a poll run that ends with the timeout
    error ends more than [MAX_TIMEOUT_MS] and at most
    [MAX_TIMEOUT_MS + POLL_INTERVAL_MS + L + G] after its start. *)
Theorem poll_timeout_not_late fuel jobId w L G :
  (forall n, Z.of_N (api_reply env n).1 <= L) ->
  (forall n, Z.of_N (timer_lag env n) <= G) ->
  let run := pollJobStatus REMOTE_URL HMAC_SECRET env fuel jobId w in
  run.1 = Throw timeout_error ->
  MAX_TIMEOUT_MS < clock run.2 - clock w <= MAX_TIMEOUT_MS + POLL_INTERVAL_MS + L + G.
Proof.
  intros HL HG run Hr. split.
  - destruct (pollLoop_run REMOTE_URL HMAC_SECRET env jobId (clock w) fuel None (Some 0)
                w run.1 run.2 (run_pair REMOTE_URL HMAC_SECRET env fuel jobId w))
      as (_ & _ & _ & Ht & _).
    specialize (Ht Hr). lia.
  - apply (pollLoop_timeout_bound jobId (clock w) L G fuel None (Some 0) w run.1 run.2 HL HG
             (run_pair REMOTE_URL HMAC_SECRET env fuel jobId w)); [|exact Hr].
    unfold lateness_bound, MAX_TIMEOUT_MS, POLL_INTERVAL_MS.
    specialize (HL 0%nat). specialize (HG 0%nat). lia.
Qed.

(** X6.  A pass of the loop that is in time and receives a "processing"
    job with a step and a progress below -1 or above 101, differing from
    what was last seen, throws the [RangeError] of [logProgress]: the
    request has been made, nothing is printed. *)
Theorem poll_undrawable_progress_throws jobId start ls lp w job step p :
  clock w - start <= MAX_TIMEOUT_MS ->
  (api_reply env (api_calls w)).2 = AxResponse job ->
  job_status job = "processing" ->
  job_currentStep job = Some step -> step <> EmptyString ->
  job_progress job = Some p -> p < -1 \/ 101 < p ->
  changed job ls lp = true ->
  exists m,
    pollIteration REMOTE_URL HMAC_SECRET env jobId start ls lp w
    = (Throw (RangeError m), after_api_call env (status_request REMOTE_URL jobId w) w).
Proof.
  intros Hintime Hreply Hstatus Hstep Hne Hp Hrange Hchanged.
  rewrite pollIteration_request by exact Hintime. cbv zeta. rewrite Hreply.
  unfold showProgressIfChanged. fold (changed job ls lp). rewrite Hchanged.
  rewrite Hstatus, Hstep, Hp.
  destruct step as [|c s]; [congruence|].
  cbn [String.eqb Ascii.eqb Bool.eqb Js.truthy_str andb default from_option id].
  assert (Hor : Js.or_num (Some p) 0 = p).
  { unfold Js.or_num. destruct p; reflexivity. }
  rewrite Hor. unfold bind at 1.
  destruct Hrange as [Hlow|Hhigh].
  - rewrite logProgress_underflow by exact Hlow. eexists. reflexivity.
  - rewrite logProgress_overflow by exact Hhigh. eexists. reflexivity.
Qed.

End PollTiming.

Lemma poll_request_error_ends_run_witness :
  let run := pollJobStatus None None Scenario.server_dropping 10 (Some "job-1") Sample.world0 in
  run.1 = Throw (Error "Network Error: No response from server. Is the API accessible?")
  /\ api_calls run.2 = 2%nat.
Proof.
  apply (poll_request_error_ends_run None None Scenario.server_dropping 10 (Some "job-1")
           Sample.world0 1
           {| err_response := None; err_request := true; err_code := None;
              err_message := "socket hang up" |}).
  - reflexivity.
  - vm_compute. lia.
Defined.

Lemma poll_returns_latest_completed_witness :
  let run := pollJobStatus None None Sample.server_completing 10 (Some "job-1") Sample.world0 in
  job_status Sample.job_completed = "completed"
  /\ (api_calls Sample.world0 < api_calls run.2)%nat
  /\ (api_reply Sample.server_completing (pred (api_calls run.2))).2
     = AxResponse Sample.job_completed.
Proof.
  apply (poll_returns_latest_completed None None Sample.server_completing 10 (Some "job-1")
           Sample.world0 Sample.job_completed).
  vm_compute. reflexivity.
Defined.

Lemma poll_timeout_not_late_witness :
  let run := pollJobStatus None None Sample.server_stuck 62 (Some "job-1") Sample.world0 in
  MAX_TIMEOUT_MS < clock run.2 - clock Sample.world0
  <= MAX_TIMEOUT_MS + POLL_INTERVAL_MS + 120 + 3.
Proof.
  apply (poll_timeout_not_late None None Sample.server_stuck 62 (Some "job-1")
           Sample.world0 120 3).
  - intros n. cbn. lia.
  - intros n. cbn. lia.
  - vm_compute. reflexivity.
Defined.

Lemma poll_undrawable_progress_throws_witness :
  exists m,
    pollIteration None None Scenario.server_overshooting (Some "job-1")
      (clock Sample.world0) None (Some 0) Sample.world0
    = (Throw (RangeError m),
       after_api_call Scenario.server_overshooting
         (status_request None (Some "job-1") Sample.world0) Sample.world0).
Proof.
  apply (poll_undrawable_progress_throws None None Scenario.server_overshooting
           (Some "job-1") (clock Sample.world0) None (Some 0) Sample.world0
           (Sample.job_processing 150) "Encoding" 150).
  - unfold MAX_TIMEOUT_MS. cbn. lia.
  - reflexivity.
  - reflexivity.
  - reflexivity.
  - discriminate.
  - reflexivity.
  - right. lia.
  - reflexivity.
Defined.

(* ===================================================================== *)
(** * More on the download                                               *)
(* ===================================================================== *)

Section StreamMore.


Lemma onData_drawn totalBytes chunk d w :
  report_drawn totalBytes (d + Z.of_nat (length chunk)) ->
  onData totalBytes chunk d w
  = (Ok (d + Z.of_nat (length chunk)),
     printed (report totalBytes (d + Z.of_nat (length chunk))) w).
Proof.
  intros Hdrawn. unfold onData, report, bind.
  destruct (Js.truthy_num totalBytes) eqn:Htotal.
  - rewrite logProgress_ok by (apply Hdrawn; exact Htotal). reflexivity.
  - unfold ret. rewrite printed_nil. reflexivity.
Qed.

(** [logProgress] only prints, whether it returns or throws. *)
Lemma logProgress_frame message p w :
  exists r os, logProgress message p w = (r, printed os w).
Proof.
  destruct (Z_lt_le_dec p (-1)) as [Hlow|Hlow].
  { rewrite logProgress_underflow by exact Hlow. eexists _, []. rewrite printed_nil. reflexivity. }
  destruct (Z_lt_le_dec 101 p) as [Hhigh|Hhigh].
  { rewrite logProgress_overflow by exact Hhigh. eexists _, []. rewrite printed_nil. reflexivity. }
  rewrite logProgress_ok by lia. eexists _, _. reflexivity.
Qed.

Lemma streamEvents_drawn outputPath totalBytes (rest : list StreamEvent)
    (chunks : list (list Byte.byte)) :
  forall d w content,
    Forall (report_drawn totalBytes) (counts_from d chunks) ->
    fs w !! outputPath = Some content ->
    exists w',
      streamEvents (map Data chunks ++ rest) outputPath totalBytes d w
      = streamEvents rest outputPath totalBytes
          (d + Z.of_nat (length (concat chunks))) w'
      /\ fs w' !! outputPath = Some (content ++ concat chunks)
      /\ out w' = out w ++ flat_map (report totalBytes) (counts_from d chunks).
Proof.
  induction chunks as [|chunk chunks IH]; intros d w content Hdrawn Hfile.
  - exists w. cbn. rewrite Z.add_0_r, !app_nil_r. auto.
  - cbn [map app concat counts_from] in *.
    apply Forall_cons in Hdrawn. destruct Hdrawn as [Hfirst Hdrawn].
    cbn [streamEvents]. unfold bind at 1. unfold pipe_write.
    unfold bind at 1. unfold in_handler.
    rewrite onData_drawn by exact Hfirst.
    destruct (IH (d + Z.of_nat (length chunk))
                (printed (report totalBytes (d + Z.of_nat (length chunk)))
                   (set_fs (alter (fun c => c ++ chunk) outputPath (fs w)) w))
                (content ++ chunk) Hdrawn) as (w' & Hrun & Hfs & Hout).
    + cbn. rewrite lookup_alter_eq, Hfile. reflexivity.
    + exists w'. rewrite Hrun, Hfs, Hout.
      rewrite length_app, Nat2Z.inj_add, Z.add_assoc, <- !app_assoc.
      cbn [flat_map]. cbn. rewrite <- app_assoc. auto.
Qed.

Lemma report_silent totalBytes counts :
  Js.truthy_num totalBytes = false -> flat_map (report totalBytes) counts = [].
Proof.
  intros H. induction counts as [|c counts IH]; [reflexivity|].
  cbn [flat_map]. rewrite IH. unfold report. rewrite H. reflexivity.
Qed.

(** Whatever the events, the copy touches no file but the destination and
    sends nothing. *)
Lemma streamEvents_frame outputPath totalBytes (events : list StreamEvent) :
  forall d w r,
    streamEvents events outputPath totalBytes d w = r ->
    forall other,
      other <> outputPath ->
      fs r.2 !! other = fs w !! other /\ sent r.2 = sent w.
Proof.
  induction events as [|event events IH]; intros d w r Hrun other Hother.
  { subst r. auto. }
  destruct event as [chunk| |m|m]; cbn [streamEvents] in Hrun; try (subst r; split; reflexivity).
  - unfold bind at 1 in Hrun. unfold pipe_write in Hrun. unfold bind at 1 in Hrun.
    unfold in_handler in Hrun.
    set (w1 := set_fs (alter (fun content => content ++ chunk) outputPath (fs w)) w) in *.
    assert (Hw1 : fs w1 !! other = fs w !! other /\ sent w1 = sent w).
    { subst w1. cbn. rewrite lookup_alter_ne by congruence. auto. }
    assert (Hdata : exists r os, onData totalBytes chunk d w1 = (r, printed os w1)).
    { unfold onData, bind.
      destruct (Js.truthy_num totalBytes).
      - match goal with |- context [logProgress ?m ?p ?x] =>
          destruct (logProgress_frame m p x) as (r' & os & ->) end.
        destruct r' as [[]|e|e|]; eexists _, _; reflexivity.
      - eexists _, []. unfold ret. rewrite printed_nil. reflexivity. }
    destruct Hdata as (r' & os & Hdata). rewrite Hdata in Hrun.
    destruct Hw1 as [Hfs Hsent].
    destruct r' as [d'|e|e|]; try (subst r; cbn [fst snd printed fs sent]; split; assumption).
    destruct (IH d' (printed os w1) r Hrun other Hother) as [H1 H2].
    split; [rewrite H1|rewrite H2]; cbn [printed fs sent]; assumption.
  - unfold statSync_size in Hrun. subst r.
    destruct (fs w !! outputPath); split; reflexivity.
Qed.

Lemma streamEvents_ok outputPath totalBytes (events : list StreamEvent) :
  forall d w size w',
    streamEvents events outputPath totalBytes d w = (Ok size, w') ->
    exists content, fs w' !! outputPath = Some content /\ size = Z.of_nat (length content).
Proof.
  induction events as [|event events IH]; intros d w size w' Hrun; [discriminate Hrun|].
  destruct event as [chunk| |m|m]; cbn [streamEvents] in Hrun; try discriminate Hrun.
  - unfold bind at 1 in Hrun. unfold pipe_write in Hrun. unfold bind at 1 in Hrun.
    unfold in_handler in Hrun.
    destruct (onData totalBytes chunk d _) as [[d'|e|e|] w1]; try discriminate Hrun.
    exact (IH _ _ _ _ Hrun).
  - unfold statSync_size in Hrun. destruct (fs w !! outputPath) as [content|] eqn:Hfile;
      [|discriminate Hrun].
    injection Hrun as <- <-. exists content. auto.
Qed.

End StreamMore.

Section FetcherExtras.

Variable env : Env.


(** X7.  The announced length is not checked against what arrives: when
    the stream ends after fewer bytes than the [content-length] header
    announced, [downloadFile] still resolves, with the number of bytes
    received, and the file holds exactly these bytes. *)
Theorem download_short_body_resolves
    url outputPath w latency headers chunks rest total :
  download_reply env
  = (latency, AxResponse {| stream_headers := headers;
                            stream_events := map Data chunks ++ End_ :: rest |}) ->
  open_error env = None ->
  Js.parseInt10 (headers !! "content-length") = Some total ->
  Z.of_nat (length (concat chunks)) < total ->
  let run := downloadFile env url outputPath w in
  run.1 = Ok (Z.of_nat (length (concat chunks)))
  /\ fs run.2 !! outputPath = Some (concat chunks).
Proof.
  intros Hreply Hopen Htotal Hshort run.
  destruct (downloadFile_streams env url outputPath w _ _ _ Hreply Hopen)
    as (w0 & Hrun & Hfile & Hout).
  rewrite Htotal in Hrun.
  destruct (streamEvents_data outputPath (Some total) (End_ :: rest) chunks 0 w0 [])
    as (w' & Hdata & Hfs & _); [lia|unfold fits; lia|exact Hfile|].
  rewrite Hdata in Hrun. cbn [streamEvents] in Hrun. unfold statSync_size in Hrun.
  rewrite Hfs in Hrun. cbn [app] in *.
  subst run. rewrite Hrun. cbn [fst snd]. split; [reflexivity|exact Hfs].
Qed.

(** X8.  Without a usable [content-length] (missing, not a number, or
    zero) a download that ends normally prints nothing, and resolves
    with the size of the file written. *)
Theorem download_without_total_is_silent
    url outputPath w latency headers chunks rest :
  download_reply env
  = (latency, AxResponse {| stream_headers := headers;
                            stream_events := map Data chunks ++ End_ :: rest |}) ->
  open_error env = None ->
  Js.truthy_num (Js.parseInt10 (headers !! "content-length")) = false ->
  let run := downloadFile env url outputPath w in
  run.1 = Ok (Z.of_nat (length (concat chunks)))
  /\ out run.2 = out w
  /\ fs run.2 !! outputPath = Some (concat chunks).
Proof.
  intros Hreply Hopen Htotal run.
  destruct (downloadFile_streams env url outputPath w _ _ _ Hreply Hopen)
    as (w0 & Hrun & Hfile & Hout).
  destruct (streamEvents_drawn outputPath (Js.parseInt10 (headers !! "content-length"))
              (End_ :: rest) chunks 0 w0 [])
    as (w' & Hdata & Hfs & Hout'); [|exact Hfile|].
  { apply Forall_forall. intros c _ Ht. rewrite Htotal in Ht. discriminate Ht. }
  rewrite Hdata in Hrun. cbn [streamEvents] in Hrun. unfold statSync_size in Hrun.
  rewrite Hfs in Hrun. cbn [app] in *.
  subst run. rewrite Hrun. cbn [fst snd].
  split; [reflexivity|]. split; [|exact Hfs].
  rewrite Hout', Hout, (report_silent _ _ Htotal), app_nil_r. reflexivity.
Qed.

(** X9.  Whatever happens during a download, [downloadFile] sends
    exactly one request, a GET of the URL it was given, without headers
    and with a timeout of 60 s, and leaves every file other than the
    destination as it was. *)
Theorem download_touches_only_destination url outputPath w other :
  other <> outputPath ->
  let run := downloadFile env url outputPath w in
  fs run.2 !! other = fs w !! other
  /\ sent run.2 = sent w ++ [(clock w, download_request url)].
Proof.
  intros Hother run. subst run.
  destruct (downloadFile env url outputPath w) as [r w'] eqn:Hrun. cbn [fst snd].
  unfold downloadFile in Hrun. unfold bind at 1 in Hrun. unfold axios_stream in Hrun.
  fold (download_request url) in Hrun.
  destruct (download_reply env).2 as [response|e].
  - unfold bind at 1 in Hrun. unfold createWriteStream in Hrun.
    cbn [advance record_request fs open_error] in Hrun.
    destruct (open_error env) as [m|].
    { injection Hrun as <- <-. split; reflexivity. }
    destruct (streamEvents_frame _ _ _ _ _ _ Hrun other Hother) as [H1 H2].
    cbn [fst snd] in H1, H2.
    rewrite H1, H2. cbn. rewrite lookup_insert_ne by congruence. auto.
  - injection Hrun as <- <-. split; reflexivity.
Qed.

(** X10.  When the request fails, [downloadFile] rejects with the error
    of the request, and when the destination cannot be opened, with that
    error; in both cases the file system is left as it was. *)
Theorem download_failure_before_stream url outputPath w :
  let run := downloadFile env url outputPath w in
  (forall e, (download_reply env).2 = AxError e ->
     run.1 = Throw (Error (err_message e)) /\ fs run.2 = fs w)
  /\ (forall response m,
        (download_reply env).2 = AxResponse response ->
        open_error env = Some m ->
        run.1 = Throw (Error m) /\ fs run.2 = fs w).
Proof.
  intros run. subst run.
  destruct (downloadFile env url outputPath w) as [r w'] eqn:Hrun. cbn [fst snd].
  unfold downloadFile in Hrun. unfold bind at 1 in Hrun. unfold axios_stream in Hrun.
  split.
  - intros e He. rewrite He in Hrun. injection Hrun as <- <-. split; reflexivity.
  - intros response m Hresponse Hopen. rewrite Hresponse in Hrun.
    unfold bind at 1 in Hrun. unfold createWriteStream in Hrun.
    rewrite Hopen in Hrun. injection Hrun as <- <-. split; reflexivity.
Qed.

(** X11.  Whenever [downloadFile] resolves, the destination exists and
    the number returned is its size. *)
Theorem download_size_is_file_size url outputPath w size :
  let run := downloadFile env url outputPath w in
  run.1 = Ok size ->
  exists content,
    fs run.2 !! outputPath = Some content /\ size = Z.of_nat (length content).
Proof.
  intros run. subst run.
  destruct (downloadFile env url outputPath w) as [r w'] eqn:Hrun. cbn [fst snd].
  intros ->.
  unfold downloadFile in Hrun. unfold bind at 1 in Hrun. unfold axios_stream in Hrun.
  destruct (download_reply env).2 as [response|e]; [|discriminate Hrun].
  unfold bind at 1 in Hrun. unfold createWriteStream in Hrun.
  destruct (open_error env) as [m|]; [discriminate Hrun|].
  exact (streamEvents_ok _ _ _ _ _ _ _ Hrun).
Qed.


End FetcherExtras.

Section NumeralFacts.

Lemma digits_prefix_acc (d : Decimal.uint) :
  forall acc : positive,
    Js.digits_prefix (Some (Z.pos acc)) (NilEmpty.string_of_uint d)
    = Some (Z.pos (Pos.of_uint_acc d acc)).
Proof.
  induction d; intros acc; cbn [NilEmpty.string_of_uint Js.digits_prefix Pos.of_uint_acc];
    [reflexivity|..];
    (change (Js.digit_of _) with (Some 0) || change (Js.digit_of _) with (Some 1)
     || change (Js.digit_of _) with (Some 2) || change (Js.digit_of _) with (Some 3)
     || change (Js.digit_of _) with (Some 4) || change (Js.digit_of _) with (Some 5)
     || change (Js.digit_of _) with (Some 6) || change (Js.digit_of _) with (Some 7)
     || change (Js.digit_of _) with (Some 8) || change (Js.digit_of _) with (Some 9));
    cbv beta iota; rewrite <- IHd; f_equal; f_equal;
    change (default 0 (Some (Z.pos acc))) with (Z.pos acc); lia.
Qed.

Lemma digits_prefix_numeral (d : Decimal.uint) :
  forall acc,
    acc = None \/ acc = Some 0 ->
    d <> Decimal.Nil ->
    Js.digits_prefix acc (NilEmpty.string_of_uint d) = Some (Z.of_uint d).
Proof.
  unfold Z.of_uint.
  induction d; intros acc Hacc Hd; [congruence|..];
    cbn [NilEmpty.string_of_uint Js.digits_prefix Pos.of_uint];
    (change (Js.digit_of _) with (Some 0) || change (Js.digit_of _) with (Some 1)
     || change (Js.digit_of _) with (Some 2) || change (Js.digit_of _) with (Some 3)
     || change (Js.digit_of _) with (Some 4) || change (Js.digit_of _) with (Some 5)
     || change (Js.digit_of _) with (Some 6) || change (Js.digit_of _) with (Some 7)
     || change (Js.digit_of _) with (Some 8) || change (Js.digit_of _) with (Some 9));
    cbv beta iota;
    assert (Hzero : default 0 acc = 0) by (destruct Hacc as [-> | ->]; reflexivity);
    rewrite Hzero, Z.mul_0_r, Z.add_0_l;
    try (rewrite digits_prefix_acc; reflexivity).
  destruct d; [reflexivity|apply IHd; [auto|discriminate]..].
Qed.

Lemma numeral_starts_with_digit (d : Decimal.uint) :
  d <> Decimal.Nil ->
  Js.skip_spaces (NilEmpty.string_of_uint d) = NilEmpty.string_of_uint d
  /\ match NilEmpty.string_of_uint d with
     | String "-" _ | String "+" _ | EmptyString => False
     | _ => True
     end.
Proof. destruct d; [congruence|..]; intros _; split; (reflexivity || exact I). Qed.

(** [parseInt] reads back the numeral [String] writes. *)
Lemma parseInt10_String_of_number (n : Z) :
  Js.parseInt10 (Some (Js.String_of_number n)) = Some n.
Proof.
  unfold Js.String_of_number. destruct (to_int_not_nil n) as [Hpos Hneg].
  rewrite <- (DecimalZ.of_to n) at 2.
  destruct (Z.to_int n) as [d|d]; cbn [NilZero.string_of_int Z.of_int].
  - assert (Hd : d <> Decimal.Nil) by congruence.
    assert (Hs : NilZero.string_of_uint d = NilEmpty.string_of_uint d)
      by (destruct d; [congruence|reflexivity..]).
    rewrite Hs. destruct (numeral_starts_with_digit d Hd) as [Hskip Hfirst].
    unfold Js.parseInt10. rewrite Hskip.
    rewrite <- (digits_prefix_numeral d None (or_introl eq_refl) Hd).
    destruct (NilEmpty.string_of_uint d) as [|c r]; [contradiction|].
    destruct c as [[] [] [] [] [] [] [] []]; try reflexivity; contradiction.
  - assert (Hd : d <> Decimal.Nil) by congruence.
    assert (Hs : NilZero.string_of_uint d = NilEmpty.string_of_uint d)
      by (destruct d; [congruence|reflexivity..]).
    rewrite Hs. unfold Js.parseInt10.
    change (Js.skip_spaces (String "-" (NilEmpty.string_of_uint d)))
      with (String "-" (NilEmpty.string_of_uint d)).
    cbv beta iota.
    rewrite (digits_prefix_numeral d None (or_introl eq_refl) Hd). reflexivity.
Qed.

End NumeralFacts.

Section CountMore.

Lemma counts_from_snoc (chunks : list (list Byte.byte)) :
  forall d,
    chunks <> [] ->
    exists init,
      counts_from d chunks = init ++ [d + Z.of_nat (length (concat chunks))].
Proof.
  induction chunks as [|chunk chunks IH]; intros d Hne; [congruence|].
  cbn [counts_from concat]. rewrite length_app, Nat2Z.inj_add, Z.add_assoc.
  destruct chunks as [|chunk' chunks'].
  - exists []. cbn. rewrite Z.add_0_r. reflexivity.
  - destruct (IH (d + Z.of_nat (length chunk))) as (init & Hinit); [discriminate|].
    rewrite Hinit. exists ((d + Z.of_nat (length chunk)) :: init). reflexivity.
Qed.

Lemma full_percentage (total : Z) : 0 < total -> Js.round_div (100 * total) total = 100.
Proof.
  intros H. unfold Js.round_div.
  symmetry. apply Z.div_unique with (r := total); lia.
Qed.

End CountMore.

Section FetcherNumeral.

Variable env : Env.

(** X13.  When the bytes received are exactly the positive number
    announced by [content-length] (written as a decimal numeral),
    [downloadFile] resolves with that number, and the last thing it
    prints is the progress bar at 100% followed by a line end. *)
Theorem download_complete_reaches_100
    url outputPath w latency headers chunks rest total :
  download_reply env
  = (latency, AxResponse {| stream_headers := headers;
                            stream_events := map Data chunks ++ End_ :: rest |}) ->
  open_error env = None ->
  headers !! "content-length" = Some (Js.String_of_number total) ->
  0 < total ->
  Z.of_nat (length (concat chunks)) = total ->
  let run := downloadFile env url outputPath w in
  run.1 = Ok total
  /\ exists earlier,
       out run.2 = out w ++ earlier ++ [OutProgress "Downloading video" 100; OutNewline].
Proof.
  intros Hreply Hopen Hheader Hpos Hsize run.
  destruct (downloadFile_streams env url outputPath w _ _ _ Hreply Hopen)
    as (w0 & Hrun & Hfile & Hout).
  rewrite Hheader, parseInt10_String_of_number in Hrun.
  destruct (streamEvents_data outputPath (Some total) (End_ :: rest) chunks 0 w0 [])
    as (w' & Hdata & Hfs & Hout' & _); [lia|unfold fits; lia|exact Hfile|].
  rewrite Hdata in Hrun. cbn [streamEvents] in Hrun. unfold statSync_size in Hrun.
  rewrite Hfs in Hrun. cbn [app] in *.
  subst run. rewrite Hrun. cbn [fst snd].
  split; [rewrite Hsize; reflexivity|].
  destruct (counts_from_snoc chunks 0) as (init & Hinit).
  { intros ->. cbn in Hsize. lia. }
  rewrite Hout', Hout, Hinit, flat_map_app. cbn [flat_map].
  exists (flat_map (report (Some total)) init). rewrite app_nil_r. f_equal. f_equal.
  rewrite Z.add_0_l, Hsize. unfold report.
  assert (Htruthy : Js.truthy_num (Some total) = true) by (destruct total; [lia|reflexivity..]).
  rewrite Htruthy. change (default 0 (Some total)) with total.
  rewrite full_percentage by exact Hpos. reflexivity.
Qed.

End FetcherNumeral.


Lemma download_short_body_resolves_witness :
  let run := downloadFile Scenario.download_short (Some "https://api.example.com/videos/42.mp4") OUTPUT_FILE Sample.world0 in
  run.1 = Ok 4 /\ fs run.2 !! OUTPUT_FILE = Some Sample.bytes4.
Proof.
  apply (download_short_body_resolves Scenario.download_short (Some "https://api.example.com/videos/42.mp4") OUTPUT_FILE
           Sample.world0 40%N {["content-length" := "10"]} [Sample.bytes4] [] 10);
    reflexivity.
Defined.

Lemma download_without_total_is_silent_witness :
  let run := downloadFile Scenario.download_unannounced (Some "https://api.example.com/videos/42.mp4") OUTPUT_FILE Sample.world0 in
  run.1 = Ok 4
  /\ out run.2 = out Sample.world0
  /\ fs run.2 !! OUTPUT_FILE = Some Sample.bytes4.
Proof.
  apply (download_without_total_is_silent Scenario.download_unannounced (Some "https://api.example.com/videos/42.mp4") OUTPUT_FILE
           Sample.world0 40%N ∅ [Sample.bytes4] []);
    reflexivity.
Defined.

Lemma download_touches_only_destination_witness :
  let run := downloadFile Sample.download_complete (Some "https://api.example.com/videos/42.mp4") OUTPUT_FILE Sample.world0 in
  fs run.2 !! "notes.txt" = fs Sample.world0 !! "notes.txt"
  /\ sent run.2
     = sent Sample.world0 ++ [(clock Sample.world0, download_request (Some "https://api.example.com/videos/42.mp4"))].
Proof.
  apply (download_touches_only_destination Sample.download_complete (Some "https://api.example.com/videos/42.mp4") OUTPUT_FILE
           Sample.world0 "notes.txt").
  unfold OUTPUT_FILE. discriminate.
Defined.

Lemma download_failure_before_stream_witness :
  let run := downloadFile Sample.server_stuck (Some "https://api.example.com/videos/42.mp4") OUTPUT_FILE Sample.world0 in
  run.1 = Throw (Error "socket hang up") /\ fs run.2 = fs Sample.world0.
Proof.
  apply (proj1 (download_failure_before_stream Sample.server_stuck (Some "https://api.example.com/videos/42.mp4") OUTPUT_FILE
                  Sample.world0)
           {| err_response := None; err_request := true; err_code := None;
              err_message := "socket hang up" |}).
  reflexivity.
Defined.

Lemma download_size_is_file_size_witness :
  let run := downloadFile Sample.download_complete (Some "https://api.example.com/videos/42.mp4") OUTPUT_FILE Sample.world0 in
  exists content,
    fs run.2 !! OUTPUT_FILE = Some content /\ 4 = Z.of_nat (length content).
Proof.
  apply (download_size_is_file_size Sample.download_complete (Some "https://api.example.com/videos/42.mp4") OUTPUT_FILE
           Sample.world0 4).
  reflexivity.
Defined.


Lemma download_complete_reaches_100_witness :
  let run := downloadFile Sample.download_in_chunks (Some "https://api.example.com/videos/42.mp4") OUTPUT_FILE Sample.world0 in
  run.1 = Ok 4
  /\ exists earlier,
       out run.2
       = out Sample.world0 ++ earlier ++ [OutProgress "Downloading video" 100; OutNewline].
Proof.
  apply (download_complete_reaches_100 Sample.download_in_chunks (Some "https://api.example.com/videos/42.mp4") OUTPUT_FILE
           Sample.world0 40%N {["content-length" := "4"]}
           [[Byte.x00; Byte.x01]; [Byte.x02]; [Byte.x03]] [] 4);
    reflexivity.
Defined.

(* ===================================================================== *)
(** * More on the configuration, the transport and the whole script      *)
(* ===================================================================== *)

(** X14.  A URL returned by [validateUrl] starts with "http://" or
    "https://" and is accepted by the URL parser. *)
Theorem validateUrl_result_has_scheme (urlParses : string -> bool) (url : option string)
    (result : string) :
  validateUrl urlParses url = Ok result ->
  Js.startsWith "http://" result || Js.startsWith "https://" result = true
  /\ urlParses result = true.
Proof.
  unfold validateUrl. destruct (negb (Js.truthy_str url)); [discriminate|].
  set (stripped := Js.replace_trailing_slash (default EmptyString url)).
  destruct (Js.startsWith "http://" stripped) eqn:Hhttp;
    destruct (Js.startsWith "https://" stripped) eqn:Hhttps; cbn [negb andb];
    match goal with |- context [urlParses ?u] => destruct (urlParses u) eqn:Hparses end;
    try discriminate; intros [= <-];
    (split; [|exact Hparses]); rewrite ?Hhttp, ?Hhttps; try reflexivity.
  unfold Js.startsWith. rewrite (prefix_append "https://" stripped). apply orb_true_r.
Qed.

Lemma validateUrl_result_has_scheme_witness :
  Js.startsWith "http://" "https://my-api.railway.app"
  || Js.startsWith "https://" "https://my-api.railway.app" = true
  /\ true = true.
Proof.
  apply (validateUrl_result_has_scheme (fun _ => true) (Some "my-api.railway.app/")
           "https://my-api.railway.app").
  reflexivity.
Defined.

Section TransportExtras.

Variable REMOTE_URL : option string.
Variable HMAC_SECRET : option string.
Variable env : Env.

(** X15.  A body that is falsy in JavaScript ([null], [false], [0], the
    empty string) is treated as no body: the request is the one made
    without a body, it carries no data and no [X-Signature] header. *)
Theorem falsy_body_is_no_body method endpoint body w :
  Json.truthy body = false ->
  makeAuthenticatedRequest REMOTE_URL HMAC_SECRET env method endpoint body w
  = makeAuthenticatedRequest REMOTE_URL HMAC_SECRET env method endpoint None w
  /\ exists request,
       sent (makeAuthenticatedRequest REMOTE_URL HMAC_SECRET env method endpoint body w).2
       = sent w ++ [(clock w, request)]
       /\ cfg_data request = None
       /\ cfg_headers request !! "X-Signature" = None.
Proof.
  intros Hfalsy.
  assert (Hsame : makeAuthenticatedRequest REMOTE_URL HMAC_SECRET env method endpoint body w
                  = makeAuthenticatedRequest REMOTE_URL HMAC_SECRET env method endpoint None w).
  { unfold makeAuthenticatedRequest, bind, Date_now. rewrite Hfalsy. reflexivity. }
  split; [exact Hsame|].
  rewrite Hsame, makeAuthenticatedRequest_bodiless.
  eexists. cbn [snd after_api_call advance count_api_call record_request sent].
  split; [reflexivity|]. split; [reflexivity|].
  cbn [base_config cfg_headers]. rewrite !lookup_insert_ne by discriminate.
  apply lookup_empty.
Qed.

End TransportExtras.

Section MonadFacts.

Lemma bind_ok {A B} (c : M A) (k : A -> M B) w b w' :
  bind c k w = (Ok b, w') ->
  exists a w1, c w = (Ok a, w1) /\ k a w1 = (Ok b, w').
Proof.
  unfold bind. destruct (c w) as [[a|e|e|] w1]; try discriminate.
  intros H. exists a, w1. auto.
Qed.

Lemma emit_ok o w a w1 : emit o w = (Ok a, w1) -> w1 = printed [o] w.
Proof. rewrite emit_printed. intros [= _ <-]. reflexivity. Qed.

End MonadFacts.

Section ScriptExtras.

Variable REMOTE_URL : option string.
Variable HMAC_SECRET : option string.
Variable urlParses : string -> bool.
Variable formatBytes : option Z -> string.
Variable toLocaleString : option Z -> string.
Variable toFixed2 : Z -> string.
Variable env : Env.

Ltac emit_in H :=
  let a := fresh "a" in
  let x := fresh "x" in
  let Hx := fresh "Hx" in
  apply bind_ok in H as (a & x & Hx & H);
  unfold logStep, logInfo, logSuccess, log in Hx;
  apply emit_ok in Hx; subst x.

(** A successful run of the steps went through every stage. *)
Lemma steps_ok fuel start w w' :
  steps REMOTE_URL HMAC_SECRET urlParses formatBytes toLocaleString toFixed2 env
    fuel start w = (Ok tt, w') ->
  exists baseUrl health created job size w1 w2 w3 w4 w5 w6 os,
    validateUrl urlParses REMOTE_URL = Ok baseUrl
    /\ Js.truthy_str HMAC_SECRET = true
    /\ testHealthEndpoint REMOTE_URL env w1 = (Ok health, w2)
    /\ sent w1 = sent w /\ fs w1 = fs w
    /\ makeAuthenticatedRequest REMOTE_URL HMAC_SECRET env "POST" "/generate-video"
         (Some (requestBody baseUrl)) (printed os w2) = (Ok created, w3)
    /\ (exists os', pollJobStatus REMOTE_URL HMAC_SECRET env fuel (job_jobId created)
                      (printed os' w3) = (Ok job, w4))
    /\ (exists os', downloadFile env (job_downloadUrl job) OUTPUT_FILE (printed os' w4)
                    = (Ok size, w5))
    /\ w' = printed w6 w5.
Proof.
  intros H. unfold steps in H.
  emit_in H.
  apply bind_ok in H as (baseUrl & x & Hurl & H). unfold lift in Hurl.
  injection Hurl as Hurl <-.
  emit_in H.
  destruct (Js.truthy_str HMAC_SECRET) eqn:Hsecret; [|discriminate H]. cbn [negb] in H.
  emit_in H. emit_in H. emit_in H.
  apply bind_ok in H as (health & w2 & Hhealth & H).
  emit_in H. emit_in H. emit_in H. emit_in H. emit_in H. emit_in H.
  emit_in H. emit_in H. emit_in H. emit_in H. emit_in H. emit_in H.
  cbv zeta in H.
  apply bind_ok in H as (created & w3 & Hcreate & H).
  emit_in H. emit_in H. emit_in H. emit_in H.
  apply bind_ok in H as (job & w4 & Hpoll & H).
  emit_in H. emit_in H. emit_in H. emit_in H. emit_in H. emit_in H.
  emit_in H. emit_in H.
  apply bind_ok in H as (size & w5 & Hdownload & H).
  emit_in H. emit_in H. emit_in H.
  apply bind_ok in H as (now & x & Hnow & H). unfold Date_now in Hnow.
  injection Hnow as <- <-. cbv zeta in H.
  emit_in H. emit_in H. emit_in H.
  unfold log in H. rewrite emit_printed in H. injection H as <-.
  rewrite !printed_printed in *.
  eexists baseUrl, health, created, job, size, _, w2, w3, w4, w5, _, _.
  split; [exact Hurl|]. split; [reflexivity|].
  split; [exact Hhealth|]. split; [reflexivity|]. split; [reflexivity|].
  split; [exact Hcreate|].
  split; [eexists; exact Hpoll|].
  split; [eexists; exact Hdownload|]. reflexivity.
Qed.

End ScriptExtras.

Section ScriptRuns.

Variable REMOTE_URL : option string.
Variable HMAC_SECRET : option string.
Variable urlParses : string -> bool.
Variable formatBytes : option Z -> string.
Variable toLocaleString : option Z -> string.
Variable toFixed2 : Z -> string.
Variable env : Env.

Lemma downloadFile_ok url outputPath w size w' :
  downloadFile env url outputPath w = (Ok size, w') ->
  exists content, fs w' !! outputPath = Some content /\ size = Z.of_nat (length content).
Proof.
  intros Hrun.
  unfold downloadFile in Hrun. unfold bind at 1 in Hrun. unfold axios_stream in Hrun.
  destruct (download_reply env).2 as [response|e]; [|discriminate Hrun].
  unfold bind at 1 in Hrun. unfold createWriteStream in Hrun.
  destruct (open_error env) as [m|]; [discriminate Hrun|].
  exact (streamEvents_ok _ _ _ _ _ _ _ Hrun).
Qed.

Lemma pollJobStatus_ok fuel jobId w job w' :
  pollJobStatus REMOTE_URL HMAC_SECRET env fuel jobId w = (Ok job, w') ->
  exists n, (api_reply env n).2 = AxResponse job /\ job_status job = "completed".
Proof.
  rewrite pollJobStatus_unfold. intros Hrun.
  assert (H := pollLoop_cases REMOTE_URL HMAC_SECRET env jobId (clock w)
                 (fun _ r _ => forall job, r = Ok job ->
                    exists n, (api_reply env n).2 = AxResponse job
                              /\ job_status job = "completed")).
  eapply H; [..|exact Hrun|reflexivity]; clear H Hrun; try (intros; discriminate).
  - intros x j os _ Hreply Hstatus j' [= <-]. exists (api_calls x). auto.
  - intros x j os r x' _ _ _ _ IH. exact IH.
Qed.

Lemma testHealthEndpoint_run w :
  testHealthEndpoint REMOTE_URL env w
  = (match (health_reply env).2 with
     | AxResponse data => Ok data
     | AxError e => Throw (Error (health_error_message e))
     end,
     advance (Z.of_N (health_reply env).1)
       (record_request
          {| cfg_method := "GET"; cfg_url := Js.template_str REMOTE_URL +:+ "/health";
             cfg_headers := ∅; cfg_data := None; cfg_timeout := 10000;
             cfg_stream := false |} w)).
Proof.
  unfold testHealthEndpoint, bind, axios_health.
  destruct (health_reply env).2; reflexivity.
Qed.

(** X16.  The script exits with code 0 only if the URL was accepted,
    the secret is set, the health probe was answered, some status request
    was answered with a completed job, and the output file exists. *)
Theorem exit_zero_leaves_video fuel w :
  let run := testVideoGeneration REMOTE_URL HMAC_SECRET urlParses formatBytes
               toLocaleString toFixed2 env fuel w in
  run.1 = Some 0 ->
  (exists baseUrl, validateUrl urlParses REMOTE_URL = Ok baseUrl)
  /\ Js.truthy_str HMAC_SECRET = true
  /\ (exists health, (health_reply env).2 = AxResponse health)
  /\ (exists n job, (api_reply env n).2 = AxResponse job /\ job_status job = "completed")
  /\ (exists content, fs run.2 !! OUTPUT_FILE = Some content).
Proof.
  intros run. subst run.
  destruct (testVideoGeneration _ _ _ _ _ _ _ _ _) as [code w'] eqn:Hrun.
  cbn [fst snd]. intros ->. revert Hrun.
  unfold testVideoGeneration. unfold log at 1. rewrite emit_printed.
  destruct (negb (Js.truthy_str REMOTE_URL)); [discriminate|].
  destruct (steps _ _ _ _ _ _ _ _ _ _) as [[[]|e|e|] x] eqn:Hsteps; try discriminate.
  intros [= <-].
  apply steps_ok in Hsteps
    as (baseUrl & health & created & job & size & w1 & w2 & w3 & w4 & w5 & w6 & os
        & Hurl & Hsecret & Hhealth & _ & _ & _ & (os1 & Hpoll) & (os' & Hdownload) & ->).
  split; [exists baseUrl; exact Hurl|]. split; [exact Hsecret|].
  split.
  { rewrite testHealthEndpoint_run in Hhealth.
    destruct (health_reply env).2 as [h|e]; [exists h; reflexivity|discriminate]. }
  split.
  { apply pollJobStatus_ok in Hpoll as (n & Hreply & Hstatus). exists n, job. auto. }
  apply downloadFile_ok in Hdownload as (content & Hfile & _).
  exists content. exact Hfile.
Qed.


Lemma steps_health_fails fuel start w baseUrl e :
  validateUrl urlParses REMOTE_URL = Ok baseUrl ->
  Js.truthy_str HMAC_SECRET = true ->
  (health_reply env).2 = AxError e ->
  exists os,
    steps REMOTE_URL HMAC_SECRET urlParses formatBytes toLocaleString toFixed2 env
      fuel start w
    = (Throw (Error (health_error_message e)),
       advance (Z.of_N (health_reply env).1)
         (record_request (health_request REMOTE_URL) (printed os w))).
Proof.
  intros Hurl Hsecret Hreply. unfold steps.
  unfold bind at 1. unfold logStep. rewrite emit_printed.
  unfold bind at 1. unfold lift. rewrite Hurl.
  unfold bind at 1. unfold logSuccess. rewrite emit_printed.
  rewrite Hsecret. cbn [negb].
  unfold bind at 1. unfold logInfo at 1. rewrite emit_printed.
  unfold bind at 1. unfold logSuccess. rewrite emit_printed.
  unfold bind at 1. unfold logStep. rewrite emit_printed.
  unfold bind at 1. rewrite testHealthEndpoint_run, Hreply.
  rewrite !printed_printed. eexists. reflexivity.
Qed.

Lemma validateUrl_ok_truthy url baseUrl :
  validateUrl urlParses url = Ok baseUrl -> Js.truthy_str url = true.
Proof.
  unfold validateUrl. destruct (Js.truthy_str url); [reflexivity|discriminate].
Qed.

(** X17.  With a valid configuration and a failing health probe the
    script exits with code 1 after exactly one request, the probe, sent to
    the URL as typed (not the normalized one) followed by "/health"; no
    file is written, and the error of [testHealthEndpoint] is printed. *)
Theorem health_failure_stops_run fuel w baseUrl e :
  validateUrl urlParses REMOTE_URL = Ok baseUrl ->
  Js.truthy_str HMAC_SECRET = true ->
  (health_reply env).2 = AxError e ->
  let run := testVideoGeneration REMOTE_URL HMAC_SECRET urlParses formatBytes
               toLocaleString toFixed2 env fuel w in
  run.1 = Some 1
  /\ sent run.2 = sent w ++ [(clock w, health_request REMOTE_URL)]
  /\ fs run.2 = fs w
  /\ In (OutError (health_error_message e)) (out run.2).
Proof.
  intros Hurl Hsecret Hreply run. subst run.
  destruct (testVideoGeneration _ _ _ _ _ _ _ _ _) as [code w'] eqn:Hrun.
  cbn [fst snd]. unfold testVideoGeneration in Hrun.
  rewrite (validateUrl_ok_truthy _ _ Hurl) in Hrun. cbn [negb] in Hrun.
  unfold log at 1 in Hrun. rewrite emit_printed in Hrun.
  match type of Hrun with context [steps _ _ _ _ _ _ _ ?f ?s ?x] =>
    destruct (steps_health_fails f s x baseUrl e Hurl Hsecret Hreply) as (os & Hsteps) end.
  rewrite Hsteps in Hrun.
  match type of Hrun with context [report_failure ?err ?x] =>
    destruct (report_failure_prints err x) as (os' & Hreport) end.
  rewrite Hreport in Hrun. injection Hrun as <- <-. cbn.
  split; [reflexivity|]. split; [reflexivity|]. split; [reflexivity|].
  apply in_or_app. right. right. left. reflexivity.
Qed.

(** X18.  When the URL given is rejected by [validateUrl], the script
    exits with code 1 without any request and without writing a file, and
    prints "Invalid URL format: " followed by a URL that does not
    parse. *)
Theorem invalid_url_fails_before_network fuel w :
  Js.truthy_str REMOTE_URL = true ->
  (forall baseUrl, validateUrl urlParses REMOTE_URL <> Ok baseUrl) ->
  let run := testVideoGeneration REMOTE_URL HMAC_SECRET urlParses formatBytes
               toLocaleString toFixed2 env fuel w in
  run.1 = Some 1
  /\ sent run.2 = sent w
  /\ fs run.2 = fs w
  /\ exists url, urlParses url = false
       /\ In (OutError ("Invalid URL format: " +:+ url)) (out run.2).
Proof.
  intros Htruthy Hinvalid run. subst run.
  destruct (testVideoGeneration _ _ _ _ _ _ _ _ _) as [code w'] eqn:Hrun.
  cbn [fst snd]. unfold testVideoGeneration in Hrun.
  rewrite Htruthy in Hrun. cbn [negb] in Hrun.
  unfold log at 1 in Hrun. rewrite emit_printed in Hrun.
  unfold steps in Hrun. unfold bind at 1 in Hrun. unfold logStep in Hrun.
  rewrite emit_printed in Hrun. unfold bind at 1 in Hrun. unfold lift in Hrun.
  pose proof (validateUrl_outcome urlParses REMOTE_URL) as Hshape.
  destruct (validateUrl urlParses REMOTE_URL) as [baseUrl|err|err|] eqn:Hurl;
    [destruct (Hinvalid baseUrl eq_refl)| |contradiction|contradiction].
  unfold validateUrl in Hurl. rewrite Htruthy in Hurl. cbn [negb] in Hurl.
  cbv zeta in Hurl.
  match type of Hurl with (if urlParses ?u then _ else _) = _ =>
    destruct (urlParses u) eqn:Hparse; [discriminate Hurl|]; injection Hurl as <-;
    match type of Hrun with context [report_failure ?err ?x] =>
      destruct (report_failure_prints err x) as (os' & Hreport) end;
    rewrite Hreport in Hrun; injection Hrun as <- <-; cbn;
    split; [reflexivity|]; split; [reflexivity|]; split; [reflexivity|];
    exists u; split; [exact Hparse|]
  end.
  apply in_or_app. right. right. left. reflexivity.
Qed.

End ScriptRuns.

Lemma falsy_body_is_no_body_witness :
  makeAuthenticatedRequest None None Sample.server_stuck "POST" "/generate-video"
    (Some (JNum 0)) Sample.world0
  = makeAuthenticatedRequest None None Sample.server_stuck "POST" "/generate-video"
      None Sample.world0
  /\ exists request,
       sent (makeAuthenticatedRequest None None Sample.server_stuck "POST" "/generate-video"
               (Some (JNum 0)) Sample.world0).2
       = sent Sample.world0 ++ [(clock Sample.world0, request)]
       /\ cfg_data request = None
       /\ cfg_headers request !! "X-Signature" = None.
Proof.
  apply (falsy_body_is_no_body None None Sample.server_stuck "POST" "/generate-video"
           (Some (JNum 0)) Sample.world0).
  reflexivity.
Defined.

Lemma exit_zero_leaves_video_witness :
  let run := testVideoGeneration (Some "https://api.example.com") (Some "shared-secret")
               (fun _ => true) (fun _ => "4 Bytes") (fun _ => "1/1/2024") (fun _ => "15.49")
               Scenario.server_working 10 Sample.world0 in
  run.1 = Some 0 /\ exists content, fs run.2 !! OUTPUT_FILE = Some content.
Proof.
  cbv zeta.
  assert (Hexit : (testVideoGeneration (Some "https://api.example.com")
                     (Some "shared-secret") (fun _ => true) (fun _ => "4 Bytes") (fun _ => "1/1/2024") (fun _ => "15.49")
                     Scenario.server_working 10 Sample.world0).1 = Some 0).
  { vm_compute. reflexivity. }
  split; [exact Hexit|].
  apply (exit_zero_leaves_video (Some "https://api.example.com") (Some "shared-secret")
           (fun _ => true) (fun _ => "4 Bytes") (fun _ => "1/1/2024") (fun _ => "15.49")
           Scenario.server_working 10 Sample.world0 Hexit).
Defined.

Lemma health_failure_stops_run_witness :
  let run := testVideoGeneration (Some "my-api.railway.app") (Some "shared-secret")
               (fun _ => true) (fun _ => "4 Bytes") (fun _ => "1/1/2024") (fun _ => "15.49")
               Sample.server_stuck 10 Sample.world0 in
  run.1 = Some 1
  /\ sent run.2
     = sent Sample.world0
       ++ [(clock Sample.world0, health_request (Some "my-api.railway.app"))]
  /\ fs run.2 = fs Sample.world0
  /\ In (OutError "Health check failed: socket hang up") (out run.2).
Proof.
  apply (health_failure_stops_run (Some "my-api.railway.app") (Some "shared-secret")
           (fun _ => true) (fun _ => "4 Bytes") (fun _ => "1/1/2024") (fun _ => "15.49")
           Sample.server_stuck 10 Sample.world0 "https://my-api.railway.app"
           {| err_response := None; err_request := true; err_code := None;
              err_message := "socket hang up" |});
    reflexivity.
Defined.

Lemma invalid_url_fails_before_network_witness :
  let run := testVideoGeneration (Some "not a url") (Some "shared-secret")
               (String.eqb "https://api.example.com") (fun _ => "4 Bytes") (fun _ => "1/1/2024") (fun _ => "15.49")
               Scenario.server_working 10 Sample.world0 in
  run.1 = Some 1
  /\ sent run.2 = sent Sample.world0
  /\ fs run.2 = fs Sample.world0
  /\ exists url, String.eqb "https://api.example.com" url = false
       /\ In (OutError ("Invalid URL format: " +:+ url)) (out run.2).
Proof.
  apply (invalid_url_fails_before_network (Some "not a url") (Some "shared-secret")
           (String.eqb "https://api.example.com") (fun _ => "4 Bytes") (fun _ => "1/1/2024") (fun _ => "15.49")
           Scenario.server_working 10 Sample.world0).
  - reflexivity.
  - intros baseUrl H. vm_compute in H. discriminate H.
Defined.
